(** * remove_big_objects: a shallow embedding and its properties
    The development follows [remove_big_objects.py].  NumPy arrays live in
    a store indexed by object identity, so that "the same object" and
    "a copy" are different things; the function is written in a small
    state-and-exception monad over that store.  The two SciPy calls
    ([ndi.generate_binary_structure], [ndi.label]) are outside the
    repository: the structuring element is modelled from its description,
    and the labelling primitive is an interface with one executable
    instance. *)

From stdpp Require Import base gmap list strings pretty.
From Stdlib Require Import ZArith Lia.

Local Open Scope Z_scope.

(** * Definitions *)

(** ** Arrays *)

(** Element types, by NumPy kind.  [bits] is the item width, [chars] the
    length of a fixed-width string. *)
Inductive dtype :=
  | dt_bool
  | dt_int (bits : nat)
  | dt_uint (bits : nat)
  | dt_float (bits : nat)
  | dt_complex (bits : nat)
  | dt_str (chars : nat)
  | dt_object.

Global Instance dtype_eq_dec : EqDecision dtype.
Proof. solve_decision. Defined.

(** [np.issubdtype(d, np.integer)] *)
Definition issubdtype_integer (d : dtype) : bool :=
  match d with
  | dt_int _ | dt_uint _ => true
  | _ => false
  end.

(** [str(ar.dtype)], as ["%s" % ar.dtype] prints it: ["float64"],
    ["int32"], ["bool"]. *)
Definition dtype_name (d : dtype) : string :=
  match d with
  | dt_bool => "bool"
  | dt_int bits => "int" +:+ pretty bits
  | dt_uint bits => "uint" +:+ pretty bits
  | dt_float bits => "float" +:+ pretty bits
  | dt_complex bits => "complex" +:+ pretty bits
  | dt_str chars => "<U" +:+ pretty chars
  | dt_object => "object"
  end.

(** An array: element type, shape, and the elements in C (row-major)
    order.  A boolean element is 0 ([False]) or 1 ([True]); an integer
    element is its value.  The elements of the other kinds are never read
    by the function. *)
Record ndarray := Ndarray {
  dtype_of : dtype;
  shape : list nat;
  data : list Z
}.

Definition ndim (a : ndarray) : nat := length (shape a).

Definition with_data (a : ndarray) (d : list Z) : ndarray :=
  {| dtype_of := dtype_of a; shape := shape a; data := d |}.

(** ** Store, exceptions and the monad *)

Definition loc := nat.

Record state := State {
  objs : gmap loc ndarray;
  warnings : list string
}.

Inductive exn :=
  | TypeError (msg : string)
  | ValueError (msg : string)
  | IndexError (msg : string).

Inductive outcome (A : Type) :=
  | Ok (a : A)
  | Raise (e : exn).
Arguments Ok {A} a.
Arguments Raise {A} e.

(** A computation maps a state to an outcome and the state it leaves
    behind; an exception keeps every write made before it.  [None] is a
    reference to an object that was never allocated, which no Python
    program can hold.  Every object of the store owns its elements:
    views, which share the buffer of another array, are outside the
    model. *)
Definition M (A : Type) : Type := state → option (outcome A * state).

Definition ret {A} (a : A) : M A := λ s, Some (Ok a, s).

Definition bind {A B} (m : M A) (k : A → M B) : M B :=
  λ s, match m s with
       | Some (Ok a, s') => k a s'
       | Some (Raise e, s') => Some (Raise e, s')
       | None => None
       end.

Definition raise {A} (e : exn) : M A := λ s, Some (Raise e, s).

Global Instance M_ret : MRet M := @ret.
Global Instance M_bind : MBind M := λ A B k m, bind m k.

(** [try: m  except ValueError: h] *)
Definition try_except_ValueError {A} (m : M A) (h : M A) : M A :=
  λ s, match m s with
       | Some (Raise (ValueError _), s') => h s'
       | r => r
       end.

Definition deref (l : loc) : M ndarray :=
  λ s, match objs s !! l with
       | Some a => Some (Ok a, s)
       | None => None
       end.

Definition alloc (a : ndarray) : M loc :=
  λ s, let l := fresh (dom (objs s)) in
       Some (Ok l, {| objs := <[l := a]> (objs s); warnings := warnings s |}).

Definition store (l : loc) (a : ndarray) : M unit :=
  λ s, Some (Ok tt, {| objs := <[l := a]> (objs s); warnings := warnings s |}).

(** [warn(msg)] *)
Definition warn (msg : string) : M unit :=
  λ s, Some (Ok tt, {| objs := objs s; warnings := warnings s ++ [msg] |}).

(** ** The NumPy operations the function uses *)

(** [ar.copy()] *)
Definition ndarray_copy (ar : loc) : M loc :=
  a ← deref ar; alloc a.

(** [np.zeros_like(ar, dtype=dt)] *)
Definition zeros_like (ar : loc) (dt : dtype) : M loc :=
  a ← deref ar;
  alloc {| dtype_of := dt; shape := shape a;
           data := replicate (length (data a)) 0 |}.

(** [ar.ravel()]: the elements in C order. *)
Definition ravel (ar : loc) : M (list Z) :=
  a ← deref ar; ret (data a).

(** Number of occurrences of [v] in [x]. *)
Definition occurrences (v : Z) (x : list Z) : Z :=
  Z.of_nat (length (filter (λ y, y = v) x)).

Definition max_value (x : list Z) : Z := foldr Z.max 0 x.

(** [np.bincount(x)] on integers, by its documented contract: bucket [v]
    counts the occurrences of [v], for [v] from 0 to the largest element;
    an empty input gives an empty histogram; a negative element is a
    [ValueError].  The histogram here has no size limit.  NumPy converts
    [x] to its index type and allocates one bucket per value up to the
    largest, and gives up on a label too large for either; such inputs
    are outside the model, and what is proved of the array a run returns
    is stated of runs that return. *)
Definition histogram (x : list Z) : list Z :=
  match x with
  | [] => []
  | _ => map (λ v, occurrences (Z.of_nat v) x) (seq 0 (S (Z.to_nat (max_value x))))
  end.

Definition bincount (x : list Z) : M (list Z) :=
  if forallb (λ v, 0 <=? v) x
  then ret (histogram x)
  else raise (ValueError "'list' argument must have no negative elements").

(** [component_sizes > max_size] *)
Definition greater_than (sizes : list Z) (max_size : Z) : list bool :=
  map (λ c, max_size <? c) sizes.

(** One index of [too_big[ccs]]: a negative index counts from the end,
    anything outside the array is an [IndexError]. *)
Definition take_one (t : list bool) (v : Z) : option bool :=
  let n := Z.of_nat (length t) in
  if (0 <=? v) && (v <? n) then t !! Z.to_nat v
  else if (- n <=? v) && (v <? 0) then t !! Z.to_nat (v + n)
  else None.

Fixpoint take_all (t : list bool) (idx : list Z) : option (list bool) :=
  match idx with
  | [] => Some []
  | v :: rest =>
      match take_one t v, take_all t rest with
      | Some b, Some bs => Some (b :: bs)
      | _, _ => None
      end
  end.

(** [t[ccs]]: indexing with an integer array, element by element. *)
Definition getitem_array (t : list bool) (ccs : loc) : M (list bool) :=
  c ← deref ccs;
  match take_all t (data c) with
  | Some m => ret m
  | None => raise (IndexError "index is out of bounds")
  end.

Fixpoint assign_where (mask : list bool) (v : Z) (d : list Z) : list Z :=
  match mask, d with
  | b :: mask', x :: d' => (if b then v else x) :: assign_where mask' v d'
  | _, _ => d
  end.

(** [out[mask] = v]: boolean-mask assignment; the mask has the shape of
    the array.  Arrays here are writeable: NumPy's read-only flag, which
    makes this assignment raise, is outside the model. *)
Definition setitem_mask (out : loc) (mask : list bool) (v : Z) : M unit :=
  o ← deref out;
  if decide (length mask = length (data o))
  then store out (with_data o (assign_where mask v (data o)))
  else raise (IndexError "boolean index did not match indexed array").

(** ** The SciPy primitives *)

(** Position [i] of a C-ordered array of the given shape, as one
    coordinate per axis, and back. *)
Fixpoint unravel_index (sh : list nat) (i : nat) : list nat :=
  match sh with
  | [] => []
  | _ :: rest =>
      let stride := foldr Nat.mul 1%nat rest in
      (i / stride)%nat :: unravel_index rest (i mod stride)%nat
  end.

Definition ravel_multi_index (sh : list nat) (idx : list nat) : nat :=
  foldl (λ acc '(d, i), (acc * d + i)%nat) 0%nat (zip sh idx).

Definition dist (a b : nat) : nat := ((a - b) + (b - a))%nat.

(** Modelled from the spec: the external structuring-element generator
    [generate_structure(ndim, connectivity)] ([ndi.generate_binary_structure]).
    The element is a 3 x ... x 3 boolean array; a neighbour offset belongs
    to it when it moves along at most [connectivity] axes, so that 1 is
    face adjacency and [ndim] is full adjacency.  A connectivity below 1
    counts as 1. *)
Definition generate_binary_structure (rank : nat) (connectivity : Z) : list bool :=
  let connectivity := if connectivity <? 1 then 1 else connectivity in
  map (λ i, Z.of_nat (sum_list ((λ o, dist o 1) <$> unravel_index (replicate rank 3%nat) i))
              <=? connectivity)
      (seq 0 (3 ^ rank)).

(** Whether position [q] is a neighbour of position [p] under the
    structuring element [st]: every coordinate differs by at most one and
    the offset is set in [st]. *)
Definition neighbours (sh : list nat) (st : list bool) (p q : nat) : bool :=
  let ip := unravel_index sh p in
  let iq := unravel_index sh q in
  forallb (λ '(a, b), (a <=? b + 1)%nat && (b <=? a + 1)%nat) (zip ip iq)
  && default false
       (st !! ravel_multi_index (replicate (length sh) 3%nat)
                                (zip_with (λ a b, (b + 1 - a)%nat) ip iq)).

Definition is_foreground (d : list Z) (p : nat) : bool :=
  match d !! p with
  | Some v => negb (v =? 0)
  | None => false
  end.

(** Modelled from the spec: the external connected-component labelling
    primitive [label(array, structuring_element) -> label_map]
    ([ndi.label]).  The interface fixes what the function relies on: the
    label map has one non-negative label per position of the input. *)
Class Labeler := {
  label_map : ndarray → list bool → list Z;
  label_map_length : ∀ a st, length (label_map a st) = length (data a);
  label_map_nonneg : ∀ a st, Forall (λ v, 0 ≤ v) (label_map a st)
}.

(** [ndi.label(input, structure, output=output)] *)
Definition ndi_label `{Labeler} (input : loc) (structure : list bool) (output : loc) : M unit :=
  a ← deref input;
  c ← deref output;
  store output (with_data c (label_map a structure)).

(** ** The source *)

(** ["Only bool or integer image types are supported. Got %s." % ar.dtype] *)
Definition type_error_msg (a : ndarray) : string :=
  "Only bool or integer image types are supported. Got "
  +:+ dtype_name (dtype_of a) +:+ ".".

Definition _check_dtype_supported (ar : loc) : M unit :=
  a ← deref ar;
  if negb (bool_decide (dtype_of a = dt_bool) || issubdtype_integer (dtype_of a))
  then raise (TypeError (type_error_msg a))
  else ret tt.

Definition negative_labels_msg : string :=
  "Negative value labels are not supported. Try relabeling the input with `scipy.ndimage.label` or `skimage.morphology.label`.".

Definition one_label_msg : string :=
  "Only one label was provided to `remove_small_objects`. Did you mean to use a boolean array?".

Definition remove_big_objects `{Labeler}
    (ar : loc) (max_size : Z) (connectivity : Z) (in_place : bool) : M loc :=
  _check_dtype_supported ar;;
  out ← (if in_place then ret ar else ndarray_copy ar);
  if max_size =? 0 then ret out
  else
    o ← deref out;
    ccs ← (if bool_decide (dtype_of o = dt_bool)
           then a ← deref ar;
                let selem := generate_binary_structure (ndim a) connectivity in
                ccs ← zeros_like ar (dt_int 32);
                ndi_label ar selem ccs;;
                ret ccs
           else ret out);
    component_sizes ← try_except_ValueError
                        (x ← ravel ccs; bincount x)
                        (raise (ValueError negative_labels_msg));
    (if decide (length component_sizes = 2%nat)
     then warn one_label_msg else ret tt);;
    let too_big := greater_than component_sizes max_size in
    too_big_mask ← getitem_array too_big ccs;
    setitem_mask out too_big_mask 0;;
    ret out.

(** The full path, without the [max_size == 0] shortcut. *)
Definition remove_big_objects_full `{Labeler}
    (ar : loc) (max_size : Z) (connectivity : Z) (in_place : bool) : M loc :=
  _check_dtype_supported ar;;
  out ← (if in_place then ret ar else ndarray_copy ar);
  o ← deref out;
  ccs ← (if bool_decide (dtype_of o = dt_bool)
         then a ← deref ar;
              let selem := generate_binary_structure (ndim a) connectivity in
              ccs ← zeros_like ar (dt_int 32);
              ndi_label ar selem ccs;;
              ret ccs
         else ret out);
  component_sizes ← try_except_ValueError
                      (x ← ravel ccs; bincount x)
                      (raise (ValueError negative_labels_msg));
  (if decide (length component_sizes = 2%nat)
   then warn one_label_msg else ret tt);;
  let too_big := greater_than component_sizes max_size in
  too_big_mask ← getitem_array too_big ccs;
  setitem_mask out too_big_mask 0;;
  ret out.

(** The label, histogram and mask pass: the body of the function after
    the shortcut. *)
Definition label_histogram_mask `{Labeler}
    (ar out : loc) (max_size connectivity : Z) : M loc :=
  o ← deref out;
  ccs ← (if bool_decide (dtype_of o = dt_bool)
         then a ← deref ar;
              let selem := generate_binary_structure (ndim a) connectivity in
              ccs ← zeros_like ar (dt_int 32);
              ndi_label ar selem ccs;;
              ret ccs
         else ret out);
  component_sizes ← try_except_ValueError
                      (x ← ravel ccs; bincount x)
                      (raise (ValueError negative_labels_msg));
  (if decide (length component_sizes = 2%nat)
   then warn one_label_msg else ret tt);;
  let too_big := greater_than component_sizes max_size in
  too_big_mask ← getitem_array too_big ccs;
  setitem_mask out too_big_mask 0;;
  ret out.

(** ** An executable labelling *)

(** Modelled from the spec: one round of the executable stand-in for the
    external labelling primitive.  Every foreground position starts as
    its own representative and repeatedly takes the smallest
    representative among its foreground neighbours. *)
Definition spread (sh : list nat) (st : list bool) (d : list Z) (reps : list nat) : list nat :=
  let n := length d in
  map (λ p,
         if is_foreground d p
         then foldr (λ q m, if is_foreground d q && neighbours sh st p q
                            then Nat.min (default q (reps !! q)) m else m)
                    (default p (reps !! p)) (seq 0 n)
         else p)
      (seq 0 n).

Definition representatives (sh : list nat) (st : list bool) (d : list Z) : list nat :=
  Nat.iter (length d) (spread sh st d) (seq 0 (length d)).

(** Modelled from the spec: an executable stand-in for the external
    labelling primitive [label(array, structuring_element)].  After as
    many rounds as there are positions, a position's representative is
    the first position of its component; components are numbered
    1, 2, ... in the order of their first position, and the background
    is 0. *)
Definition flood_labels (a : ndarray) (st : list bool) : list Z :=
  let d := data a in
  let reps := representatives (shape a) st d in
  let roots := filter (λ p, is_foreground d p = true ∧ reps !! p = Some p)
                      (seq 0 (length d)) in
  map (λ p,
         if is_foreground d p
         then Z.of_nat (S (length (filter (λ r, (r < default p (reps !! p))%nat) roots)))
         else 0)
      (seq 0 (length d)).

Global Program Instance flood_labeler : Labeler := {|
  label_map := flood_labels
|}.
Next Obligation.
  intros a st. unfold flood_labels. by rewrite length_map, length_seq.
Qed.
Next Obligation.
  intros a st. unfold flood_labels. apply Forall_forall. intros v Hv.
  apply list_elem_of_fmap in Hv as (p & -> & _).
  destruct (is_foreground (data a) p); lia.
Qed.

(** ** What the histogram-and-mask pass computes *)

(** The result of the pass on elements [d] with label map [labels]: an
    element is zeroed when its label occurs more than [max_size] times. *)
Definition filtered (max_size : Z) (labels d : list Z) : list Z :=
  zip_with (λ l x, if max_size <? occurrences l labels then 0 else x) labels d.

(** ** The outcomes of a run *)

(** [ar.dtype == bool or np.issubdtype(ar.dtype, np.integer)] *)
Definition supported (d : dtype) : bool :=
  bool_decide (d = dt_bool) || issubdtype_integer d.

(** The buffer the function works on, and the state once it is chosen:
    the input itself, or a copy at a fresh identity. *)
Definition working_loc (s : state) (ar : loc) (in_place : bool) : loc :=
  if in_place then ar else fresh (dom (objs s)).

Definition working_state (s : state) (a : ndarray) (in_place : bool) : state :=
  if in_place then s
  else {| objs := <[fresh (dom (objs s)) := a]> (objs s); warnings := warnings s |}.

Definition warned (s : state) (sizes : list Z) : list string :=
  if decide (length sizes = 2%nat) then warnings s ++ [one_label_msg] else warnings s.

(** The label map of a boolean array, as the function asks for it. *)
Definition labels_of `{Labeler} (a : ndarray) (connectivity : Z) : list Z :=
  label_map a (generate_binary_structure (ndim a) connectivity).

(** The label map the pass works with: computed for a boolean array, the
    array itself otherwise. *)
Definition label_image `{Labeler} (a : ndarray) (connectivity : Z) : list Z :=
  if bool_decide (dtype_of a = dt_bool) then labels_of a connectivity else data a.

(** The elements of the returned array. *)
Definition result_data `{Labeler} (a : ndarray) (max_size connectivity : Z) : list Z :=
  if max_size =? 0 then data a
  else filtered max_size (label_image a connectivity) (data a).

(** What the function accepts: a boolean array, or an integer array with
    no negative element. *)
Definition valid_input (a : ndarray) : Prop :=
  supported (dtype_of a) = true
  ∧ (dtype_of a ≠ dt_bool → Forall (λ v, 0 ≤ v) (data a)).

(** ** Connected components *)

(** Two foreground positions are adjacent when the structuring element
    makes them neighbours; a component is a maximal set of foreground
    positions that reach one another through adjacent positions. *)
Definition adjacent (a : ndarray) (st : list bool) (p q : nat) : Prop :=
  is_foreground (data a) p = true
  ∧ is_foreground (data a) q = true
  ∧ neighbours (shape a) st p q = true.

Definition connected (a : ndarray) (st : list bool) : relation nat :=
  rtc (adjacent a st).

Definition component (a : ndarray) (st : list bool) (C : list nat) : Prop :=
  NoDup C
  ∧ ∃ p, is_foreground (data a) p = true
         ∧ ∀ q, q ∈ C ↔ connected a st p q ∧ connected a st q p.

(** A label map of [a]: background positions carry 0, foreground
    positions a positive label, and two foreground positions carry the
    same label exactly when they are connected. *)
Definition labels_components (a : ndarray) (st : list bool) (ccs : list Z) : Prop :=
  length ccs = length (data a)
  ∧ (∀ p, (p < length (data a))%nat → is_foreground (data a) p = false →
          ccs !! p = Some 0)
  ∧ (∀ p, is_foreground (data a) p = true → ∃ l, ccs !! p = Some l ∧ 0 < l)
  ∧ (∀ p q, is_foreground (data a) p = true → is_foreground (data a) q = true →
            (ccs !! p = ccs !! q ↔ connected a st p q)).

(** The positions that carry label [v]. *)
Definition positions (v : Z) (x : list Z) : list nat :=
  filter (λ i, x !! i = Some v) (seq 0 (length x)).

(** ** Checking a label map *)

(** One round of growth of a set of positions: the positions already in
    the set, and the foreground positions adjacent to one of them. *)
Definition grow (a : ndarray) (st : list bool) (S : list nat) : list nat :=
  filter (λ r, existsb (λ s, (s =? r)%nat
                             || (is_foreground (data a) s && is_foreground (data a) r
                                 && neighbours (shape a) st s r)) S = true)
         (seq 0 (length (data a))).

Definition reachable_from (a : ndarray) (st : list bool) (p : nat) : list nat :=
  Nat.iter (length (data a)) (grow a st) [p].

(** A decision procedure that accepts only label maps of [a]. *)
Definition check_labels (a : ndarray) (st : list bool) (ccs : list Z) : bool :=
  let d := data a in
  let all := seq 0 (length d) in
  bool_decide (length ccs = length d)
  && forallb (λ p, match ccs !! p with
                   | Some l => if is_foreground d p then 0 <? l else l =? 0
                   | None => false
                   end) all
  && forallb (λ p, forallb (λ q,
                 implb (is_foreground d p && is_foreground d q
                        && neighbours (shape a) st p q)
                       (bool_decide (ccs !! p = ccs !! q))) all) all
  && forallb (λ p, forallb (λ q,
                 implb (is_foreground d p && is_foreground d q
                        && bool_decide (ccs !! p = ccs !! q))
                       (bool_decide (q ∈ reachable_from a st p))) all) all.

(** ** Concrete inputs *)

(** The array returned by a run, if it returns. *)
Definition returned_array (r : option (outcome loc * state)) : option ndarray :=
  match r with
  | Some (Ok out, s') => objs s' !! out
  | _ => None
  end.

Definition final_state (r : option (outcome loc * state)) (s : state) : state :=
  match r with
  | Some (_, s') => s'
  | None => s
  end.

Definition state_of (a : ndarray) : state :=
  {| objs := {[ 0%nat := a ]}; warnings := [] |}.

(** The boolean array of the docstring. *)
Definition example_mask : ndarray :=
  {| dtype_of := dt_bool; shape := [3; 5]%nat;
     data := [0; 0; 0; 1; 0;
              1; 1; 1; 0; 0;
              1; 1; 1; 0; 1] |}.

(** A labelled image: label 1 three times, label 2 twice. *)
Definition example_labels : ndarray :=
  {| dtype_of := dt_int 64; shape := [2; 3]%nat;
     data := [1; 1; 1;
              2; 0; 2] |}.

Definition example_negative : ndarray :=
  {| dtype_of := dt_int 64; shape := [4]%nat; data := [3; -1; 3; 3] |}.

Definition example_float : ndarray :=
  {| dtype_of := dt_float 64; shape := [2]%nat; data := [0; 1] |}.

Definition example_single : ndarray :=
  {| dtype_of := dt_int 64; shape := [1]%nat; data := [1] |}.

(** Two runs on the labelled image, in place and on a copy. *)
Definition in_place_run :=
  remove_big_objects 0%nat 2 1 true (state_of example_labels).

Definition copy_run :=
  remove_big_objects 0%nat 2 1 false (state_of example_labels).

(** ** The claims, as properties of a run *)

(** C1 as written: after a run on a boolean array, every component of at
    most [max_size] pixels is zeroed and every larger one is kept. *)
Definition removes_small_keeps_big `{Labeler} (s : state) (ar : loc) (a : ndarray)
    (max_size connectivity : Z) (in_place : bool) : Prop :=
  ∀ out s' o,
    remove_big_objects ar max_size connectivity in_place s = Some (Ok out, s') →
    objs s' !! out = Some o →
    ∀ C, component a (generate_binary_structure (ndim a) connectivity) C →
      (Z.of_nat (length C) ≤ max_size → ∀ p, p ∈ C → data o !! p = Some 0)
      ∧ (max_size < Z.of_nat (length C) → ∀ p, p ∈ C → data o !! p = data a !! p).

(** C3 as written: on the docstring array with [max_size = 6] and
    connectivity 1, the two single pixels are zeroed and the block of six
    is all that remains. *)
Definition example_keeps_only_block : Prop :=
  data <$> returned_array (remove_big_objects 0%nat 6 1 false (state_of example_mask))
  = Some [0; 0; 0; 0; 0;
          1; 1; 1; 0; 0;
          1; 1; 1; 0; 0].

(** ** Further inputs *)

(** A store with two arrays: the labelled image at 0, the docstring
    array at 1. *)
Definition two_arrays : state :=
  {| objs := <[1%nat := example_mask]> {[ 0%nat := example_labels ]};
     warnings := [] |}.

(** A labelled image whose only label is 1. *)
Definition example_one_label : ndarray :=
  {| dtype_of := dt_int 64; shape := [4]%nat; data := [0; 1; 1; 0] |}.

(** What the pass does to one element of a labelled image. *)
Definition keep_or_zero (m : Z) (d : list Z) (x : Z) : Z :=
  if m <? occurrences x d then 0 else x.

(** * Lemmas and theorems *)

Ltac unfold_monad :=
  unfold mbind, M_bind, mret, M_ret, bind, ret, raise, deref, alloc, store, warn.

(** ** What the histogram-and-mask pass computes *)

Lemma max_value_ge (x : list Z) (v : Z) : v ∈ x → v ≤ max_value x.
Proof.
  induction x as [|y x IH]; intros Hv; [by apply elem_of_nil in Hv|].
  apply elem_of_cons in Hv as [->|Hv]; simpl; [lia|].
  specialize (IH Hv). lia.
Qed.

Lemma occurrences_nonneg (v : Z) (x : list Z) : 0 ≤ occurrences v x.
Proof. unfold occurrences. lia. Qed.

Lemma occurrences_pos (v : Z) (x : list Z) : v ∈ x → 0 < occurrences v x.
Proof.
  intros Hv. unfold occurrences.
  assert (Hin : v ∈ filter (λ y, y = v) x) by (by apply list_elem_of_filter).
  destruct (filter (λ y, y = v) x); [by apply elem_of_nil in Hin|simpl; lia].
Qed.

Lemma histogram_lookup (x : list Z) (v : Z) :
  Forall (λ v, 0 ≤ v) x → v ∈ x →
  (Z.to_nat v < length (histogram x))%nat ∧
  histogram x !! Z.to_nat v = Some (occurrences v x).
Proof.
  intros Hx Hv.
  assert (0 ≤ v) by (rewrite Forall_forall in Hx; by apply Hx).
  pose proof (max_value_ge x v Hv) as Hmax.
  unfold histogram. destruct x as [|y x']; [by apply elem_of_nil in Hv|].
  set (x := y :: x') in *.
  rewrite length_map, length_seq. split; [lia|].
  rewrite list_lookup_fmap, lookup_seq_lt by lia.
  simpl. by rewrite Z2Nat.id.
Qed.

Lemma take_one_histogram (x : list Z) (m v : Z) :
  Forall (λ v, 0 ≤ v) x → v ∈ x →
  take_one (greater_than (histogram x) m) v = Some (m <? occurrences v x).
Proof.
  intros Hx Hv.
  assert (0 ≤ v) by (rewrite Forall_forall in Hx; by apply Hx).
  destruct (histogram_lookup x v Hx Hv) as [Hlen Hlk].
  unfold take_one, greater_than. rewrite length_map.
  replace (0 <=? v) with true by (symmetry; lia).
  replace (v <? Z.of_nat (length (histogram x))) with true by (symmetry; lia).
  simpl. by rewrite list_lookup_fmap, Hlk.
Qed.

Lemma take_all_histogram (x idx : list Z) (m : Z) :
  Forall (λ v, 0 ≤ v) x → idx ⊆ x →
  take_all (greater_than (histogram x) m) idx
  = Some (map (λ v, m <? occurrences v x) idx).
Proof.
  intros Hx. induction idx as [|v idx IH]; intros Hsub; [done|].
  simpl. rewrite take_one_histogram by (done || set_solver).
  rewrite IH by set_solver. done.
Qed.

Lemma assign_where_zip_with (f : Z → bool) (labels d : list Z) :
  length labels = length d →
  assign_where (map f labels) 0 d
  = zip_with (λ l x, if f l then 0 else x) labels d.
Proof.
  revert d. induction labels as [|l labels IH]; intros [|x d] Hlen;
    simplify_eq/=; [done|].
  by rewrite IH.
Qed.

Lemma assign_where_filtered (m : Z) (labels d : list Z) :
  length labels = length d →
  assign_where (map (λ v, m <? occurrences v labels) labels) 0 d
  = filtered m labels d.
Proof.
  intros Hlen. unfold filtered.
  by rewrite (assign_where_zip_with (λ v, m <? occurrences v labels)).
Qed.

Lemma filtered_length (m : Z) (labels d : list Z) :
  length labels = length d → length (filtered m labels d) = length d.
Proof. intros Hlen. unfold filtered. rewrite length_zip_with. lia. Qed.

Lemma filtered_lookup (m : Z) (labels d : list Z) (i : nat) (l x : Z) :
  labels !! i = Some l → d !! i = Some x →
  filtered m labels d !! i
  = Some (if m <? occurrences l labels then 0 else x).
Proof.
  intros Hl Hd. unfold filtered. rewrite lookup_zip_with, Hl, Hd. done.
Qed.

(** ** Running the function *)

Lemma fresh_lookup (h : gmap loc ndarray) : h !! fresh (dom h) = None.
Proof. apply not_elem_of_dom, is_fresh. Qed.

Lemma working_lookup (s : state) (ar : loc) (a : ndarray) (in_place : bool) :
  objs s !! ar = Some a →
  objs (working_state s a in_place) !! working_loc s ar in_place = Some a.
Proof.
  intros Ha. unfold working_state, working_loc. destruct in_place; [done|].
  simpl. apply lookup_insert_eq.
Qed.

Lemma working_lookup_input (s : state) (ar : loc) (a : ndarray) (in_place : bool) :
  objs s !! ar = Some a →
  objs (working_state s a in_place) !! ar = Some a.
Proof.
  intros Ha. unfold working_state. destruct in_place; [done|].
  simpl. rewrite lookup_insert_ne; [done|].
  intros Heq. rewrite <- Heq, fresh_lookup in Ha. done.
Qed.

Lemma run_select_buffer (s : state) (ar : loc) (a : ndarray) (in_place : bool) :
  objs s !! ar = Some a →
  (if in_place then ret ar else ndarray_copy ar) s
  = Some (Ok (working_loc s ar in_place), working_state s a in_place).
Proof.
  intros Ha. unfold working_loc, working_state, ndarray_copy.
  destruct in_place; unfold_monad; [done|]. by rewrite Ha.
Qed.

Lemma run_check_dtype (s : state) (ar : loc) (a : ndarray) :
  objs s !! ar = Some a →
  _check_dtype_supported ar s
  = Some (if supported (dtype_of a) then Ok tt
          else Raise (TypeError (type_error_msg a)), s).
Proof.
  intros Ha. unfold _check_dtype_supported, supported. unfold_monad.
  rewrite Ha. by destruct (_ || _).
Qed.

Lemma run_unsupported `{Labeler} (s : state) (ar : loc) (a : ndarray)
    (max_size connectivity : Z) (in_place : bool) :
  objs s !! ar = Some a →
  supported (dtype_of a) = false →
  remove_big_objects ar max_size connectivity in_place s
  = Some (Raise (TypeError (type_error_msg a)), s).
Proof.
  intros Ha Hd. unfold remove_big_objects.
  unfold mbind at 1. unfold M_bind, bind.
  rewrite (run_check_dtype s ar a Ha), Hd. done.
Qed.

Lemma run_shortcut `{Labeler} (s : state) (ar : loc) (a : ndarray)
    (connectivity : Z) (in_place : bool) :
  objs s !! ar = Some a →
  supported (dtype_of a) = true →
  remove_big_objects ar 0 connectivity in_place s
  = Some (Ok (working_loc s ar in_place), working_state s a in_place).
Proof.
  intros Ha Hd. unfold remove_big_objects.
  unfold mbind at 1. unfold M_bind, bind.
  rewrite (run_check_dtype s ar a Ha), Hd.
  unfold mbind at 1. rewrite (run_select_buffer s ar a in_place Ha). done.
Qed.

Lemma remove_big_objects_unfold `{Labeler}
    (ar : loc) (max_size connectivity : Z) (in_place : bool) :
  remove_big_objects ar max_size connectivity in_place
  = (_check_dtype_supported ar;;
     out ← (if in_place then ret ar else ndarray_copy ar);
     if max_size =? 0 then ret out
     else label_histogram_mask ar out max_size connectivity).
Proof. reflexivity. Qed.

Lemma remove_big_objects_full_unfold `{Labeler}
    (ar : loc) (max_size connectivity : Z) (in_place : bool) :
  remove_big_objects_full ar max_size connectivity in_place
  = (_check_dtype_supported ar;;
     out ← (if in_place then ret ar else ndarray_copy ar);
     label_histogram_mask ar out max_size connectivity).
Proof. reflexivity. Qed.

Lemma forallb_nonneg (x : list Z) :
  forallb (λ v, 0 <=? v) x = true ↔ Forall (λ v, 0 ≤ v) x.
Proof.
  rewrite forallb_forall, Forall_forall. split; intros Hx v Hv.
  - apply list_elem_of_In, Hx in Hv. lia.
  - apply list_elem_of_In, Hx in Hv. lia.
Qed.

(** Histogram and mask over an already labelled buffer [c] at [ccs],
    applied to the buffer [o] at [out]. *)
Lemma run_pass_int `{Labeler} (s : state) (ar out : loc) (o : ndarray)
    (max_size connectivity : Z) :
  objs s !! out = Some o →
  dtype_of o ≠ dt_bool →
  Forall (λ v, 0 ≤ v) (data o) →
  label_histogram_mask ar out max_size connectivity s
  = Some (Ok out,
          {| objs := <[out := with_data o (filtered max_size (data o) (data o))]> (objs s);
             warnings := warned s (histogram (data o)) |}).
Proof.
  intros Ho Hd Hx. unfold label_histogram_mask, ravel, bincount, getitem_array,
    setitem_mask, try_except_ValueError, warned.
  unfold_monad. rewrite Ho. rewrite bool_decide_eq_false_2 by done.
  rewrite Ho. rewrite (proj2 (forallb_nonneg _) Hx).
  destruct (decide (length (histogram (data o)) = 2%nat)); simpl; rewrite Ho;
    rewrite take_all_histogram by done; simpl; rewrite Ho;
    rewrite length_map; (destruct (decide _) as [_|[]]; [|done]);
    by rewrite assign_where_filtered.
Qed.

Lemma run_pass_int_negative `{Labeler} (s : state) (ar out : loc) (o : ndarray)
    (max_size connectivity : Z) :
  objs s !! out = Some o →
  dtype_of o ≠ dt_bool →
  ¬ Forall (λ v, 0 ≤ v) (data o) →
  label_histogram_mask ar out max_size connectivity s
  = Some (Raise (ValueError negative_labels_msg), s).
Proof.
  intros Ho Hd Hx. unfold label_histogram_mask, ravel, bincount,
    try_except_ValueError.
  unfold_monad. rewrite Ho. rewrite bool_decide_eq_false_2 by done.
  rewrite Ho. destruct (forallb _ _) eqn:Hf; [|done].
  by apply forallb_nonneg in Hf.
Qed.

Lemma run_pass_bool `{Labeler} (s : state) (ar out : loc) (a : ndarray)
    (max_size connectivity : Z) :
  objs s !! ar = Some a →
  objs s !! out = Some a →
  dtype_of a = dt_bool →
  let ccs := fresh (dom (objs s)) in
  let labels := labels_of a connectivity in
  label_histogram_mask ar out max_size connectivity s
  = Some (Ok out,
          {| objs := <[out := with_data a (filtered max_size labels (data a))]>
                       (<[ccs := {| dtype_of := dt_int 32; shape := shape a;
                                    data := labels |}]> (objs s));
             warnings := warned s (histogram labels) |}).
Proof.
  intros Har Hout Hd ccs labels.
  assert (Hne : fresh (dom (objs s)) ≠ out).
  { intros Heq. subst out. by rewrite fresh_lookup in Hout. }
  assert (Hne' : fresh (dom (objs s)) ≠ ar).
  { intros Heq. subst ar. by rewrite fresh_lookup in Har. }
  assert (Hlen : length labels = length (data a)) by apply label_map_length.
  assert (Hpos : Forall (λ v, 0 ≤ v) labels) by apply label_map_nonneg.
  unfold label_histogram_mask, ravel, bincount, getitem_array, zeros_like,
    ndi_label, setitem_mask, try_except_ValueError, warned.
  unfold_monad. rewrite Hout. rewrite bool_decide_eq_true_2 by done.
  repeat first [ rewrite Har | rewrite lookup_insert_eq
               | rewrite lookup_insert_ne by done | progress simpl ].
  rewrite insert_insert_eq. fold ccs. fold (labels_of a connectivity).
  fold labels. rewrite (proj2 (forallb_nonneg _) Hpos).
  destruct (decide (length (histogram labels) = 2%nat)); simpl;
    rewrite lookup_insert_eq; simpl;
    rewrite take_all_histogram by done; simpl;
    rewrite lookup_insert_ne, Hout by done;
    rewrite length_map; (destruct (decide _) as [_|[]]; [|done]);
    by rewrite assign_where_filtered.
Qed.

(** Every run of the function, by cases on the input. *)
Lemma run_cases `{Labeler} (s : state) (ar : loc) (a : ndarray)
    (max_size connectivity : Z) (in_place : bool) :
  objs s !! ar = Some a →
  let w := working_loc s ar in_place in
  let s1 := working_state s a in_place in
  remove_big_objects ar max_size connectivity in_place s
  = if negb (supported (dtype_of a)) then
      Some (Raise (TypeError (type_error_msg a)), s)
    else if max_size =? 0 then Some (Ok w, s1)
    else if bool_decide (dtype_of a = dt_bool) then
      Some (Ok w,
            {| objs := <[w := with_data a (filtered max_size (labels_of a connectivity) (data a))]>
                         (<[fresh (dom (objs s1)) :=
                              {| dtype_of := dt_int 32; shape := shape a;
                                 data := labels_of a connectivity |}]> (objs s1));
               warnings := warned s1 (histogram (labels_of a connectivity)) |})
    else if forallb (λ v, 0 <=? v) (data a) then
      Some (Ok w,
            {| objs := <[w := with_data a (filtered max_size (data a) (data a))]> (objs s1);
               warnings := warned s1 (histogram (data a)) |})
    else Some (Raise (ValueError negative_labels_msg), s1).
Proof.
  intros Ha w s1.
  destruct (supported (dtype_of a)) eqn:Hsup; simpl.
  2: { by apply run_unsupported. }
  destruct (max_size =? 0) eqn:Hm.
  { apply Z.eqb_eq in Hm as ->. by apply run_shortcut. }
  rewrite remove_big_objects_unfold.
  unfold mbind at 1. unfold M_bind, bind.
  rewrite (run_check_dtype s ar a Ha), Hsup.
  unfold mbind at 1. rewrite (run_select_buffer s ar a in_place Ha), Hm.
  fold w s1.
  pose proof (working_lookup s ar a in_place Ha) as Hw.
  pose proof (working_lookup_input s ar a in_place Ha) as Hi.
  fold w s1 in Hw. fold s1 in Hi.
  case_bool_decide as Hb.
  - by apply (run_pass_bool s1 ar w a).
  - destruct (forallb _ _) eqn:Hf.
    + apply (run_pass_int s1 ar w a); [done..|]. by apply forallb_nonneg.
    + apply (run_pass_int_negative s1 ar w a); [done..|].
      rewrite <- forallb_nonneg. by rewrite Hf.
Qed.

Lemma with_data_same (a : ndarray) : with_data a (data a) = a.
Proof. by destruct a. Qed.

Lemma working_loc_fresh (s : state) (ar : loc) (a : ndarray) :
  objs s !! ar = Some a → working_loc s ar false ≠ ar.
Proof.
  intros Ha Heq. unfold working_loc in Heq.
  rewrite <- Heq, fresh_lookup in Ha. done.
Qed.

(** A run that returns: which object, what it holds, and what became of
    the input when a copy was asked for. *)
Lemma run_ok `{Labeler} (s s' : state) (ar out : loc) (a : ndarray)
    (max_size connectivity : Z) (in_place : bool) :
  objs s !! ar = Some a →
  remove_big_objects ar max_size connectivity in_place s = Some (Ok out, s') →
  supported (dtype_of a) = true
  ∧ out = working_loc s ar in_place
  ∧ objs s' !! out = Some (with_data a (result_data a max_size connectivity))
  ∧ (in_place = false → objs s' !! ar = Some a).
Proof.
  intros Ha Hrun. rewrite (run_cases s ar a _ _ _ Ha) in Hrun.
  pose proof (working_lookup s ar a in_place Ha) as Hw.
  pose proof (working_lookup_input s ar a in_place Ha) as Hi.
  unfold result_data, label_image.
  destruct (supported (dtype_of a)); simpl in Hrun; [|done].
  split; [done|].
  destruct (max_size =? 0).
  { simplify_eq. rewrite with_data_same. by repeat split. }
  case_bool_decide as Hb.
  - simplify_eq. split; [done|]. simpl. split; [by rewrite lookup_insert_eq|].
    intros ->. rewrite lookup_insert_ne by (by apply (working_loc_fresh s ar a)).
    rewrite lookup_insert_ne; [done|].
    intros Heq. rewrite <- Heq, fresh_lookup in Hi. done.
  - destruct (forallb _ _); simplify_eq.
    split; [done|]. simpl. split; [by rewrite lookup_insert_eq|].
    intros ->. by rewrite lookup_insert_ne by (by apply (working_loc_fresh s ar a)).
Qed.

Lemma run_valid `{Labeler} (s : state) (ar : loc) (a : ndarray)
    (max_size connectivity : Z) (in_place : bool) :
  objs s !! ar = Some a →
  valid_input a →
  ∃ s', remove_big_objects ar max_size connectivity in_place s
        = Some (Ok (working_loc s ar in_place), s').
Proof.
  intros Ha [Hsup Hnn]. rewrite (run_cases s ar a _ _ _ Ha), Hsup. simpl.
  destruct (max_size =? 0); [by eexists|].
  case_bool_decide as Hb; [by eexists|].
  rewrite (proj2 (forallb_nonneg _) (Hnn Hb)). by eexists.
Qed.

Lemma label_image_length `{Labeler} (a : ndarray) (connectivity : Z) :
  length (label_image a connectivity) = length (data a).
Proof.
  unfold label_image, labels_of. case_bool_decide; [apply label_map_length|done].
Qed.

Lemma result_data_length `{Labeler} (a : ndarray) (max_size connectivity : Z) :
  length (result_data a max_size connectivity) = length (data a).
Proof.
  unfold result_data. destruct (max_size =? 0); [done|].
  apply filtered_length, label_image_length.
Qed.

Lemma result_data_lookup `{Labeler} (a : ndarray) (max_size connectivity : Z)
    (i : nat) (x : Z) :
  data a !! i = Some x →
  result_data a max_size connectivity !! i = Some x
  ∨ result_data a max_size connectivity !! i = Some 0.
Proof.
  intros Hx. unfold result_data. destruct (max_size =? 0); [by left|].
  destruct (label_image a connectivity !! i) as [l|] eqn:Hl.
  - rewrite (filtered_lookup _ _ _ _ _ _ Hl Hx). destruct (_ <? _); eauto.
  - apply lookup_ge_None in Hl. apply lookup_lt_Some in Hx.
    rewrite label_image_length in Hl. lia.
Qed.

(** ** Connected components *)

Lemma is_foreground_lt (d : list Z) (p : nat) :
  is_foreground d p = true → (p < length d)%nat.
Proof.
  unfold is_foreground. destruct (d !! p) eqn:Hp; [|done].
  intros _. by apply lookup_lt_Some in Hp.
Qed.

Lemma is_foreground_lookup (d : list Z) (p : nat) :
  is_foreground d p = true ↔ ∃ x, d !! p = Some x ∧ x ≠ 0.
Proof.
  unfold is_foreground. destruct (d !! p) as [x|]; split.
  - intros Hx. exists x. split; [done|]. lia.
  - intros (y & ? & Hy). simplify_eq. lia.
  - done.
  - by intros (? & ? & _).
Qed.

Lemma connected_foreground (a : ndarray) (st : list bool) (p q : nat) :
  is_foreground (data a) p = true → connected a st p q →
  is_foreground (data a) q = true.
Proof.
  intros Hp Hc. induction Hc as [|x y z (_ & Hy & _) _ IH]; [done|].
  by apply IH.
Qed.

Lemma filter_ext_elem {A} (P Q : A → Prop) `{∀ x, Decision (P x)}
    `{∀ x, Decision (Q x)} (l : list A) :
  (∀ x, x ∈ l → P x ↔ Q x) → filter P l = filter Q l.
Proof.
  induction l as [|x l IH]; intros Hext; [done|].
  rewrite !filter_cons.
  rewrite IH by (intros y Hy; apply Hext; by right).
  destruct (decide (P x)) as [HP|HP], (decide (Q x)) as [HQ|HQ]; try done.
  - destruct HQ. apply Hext; [by left|done].
  - destruct HP. apply Hext; [by left|done].
Qed.

Lemma occurrences_positions (v : Z) (x : list Z) :
  occurrences v x = Z.of_nat (length (positions v x)).
Proof.
  unfold occurrences, positions. f_equal.
  induction x as [|y x IH] using rev_ind; [done|].
  rewrite filter_app, !length_app. simpl.
  rewrite Nat.add_1_r, seq_S, filter_app, length_app. simpl.
  rewrite IH. f_equal.
  - f_equal. apply filter_ext_elem. intros i Hi.
    apply elem_of_seq in Hi. by rewrite lookup_app_l by lia.
  - rewrite !filter_cons, !filter_nil.
    rewrite lookup_app_r, Nat.sub_diag by lia. simpl.
    destruct (decide (y = v)) as [->|Hy].
    + by rewrite decide_True.
    + rewrite decide_False; [done|]. congruence.
Qed.

(** Under a label map, a component is one label class, and its pixel
    count is the histogram entry of its label. *)
Lemma component_label_class (a : ndarray) (st : list bool) (ccs : list Z)
    (C : list nat) :
  labels_components a st ccs → component a st C →
  ∃ l, 0 < l
       ∧ (∀ q, q ∈ C ↔ ccs !! q = Some l)
       ∧ occurrences l ccs = Z.of_nat (length C).
Proof.
  intros (Hlen & Hbg & Hfg & Hsame) (Hnd & p & Hp & HC).
  destruct (Hfg p Hp) as (l & Hl & Hpos).
  assert (Hclass : ∀ q, q ∈ C ↔ ccs !! q = Some l).
  { intros q. rewrite HC. split.
    - intros [Hpq _].
      pose proof (connected_foreground a st p q Hp Hpq) as Hq.
      rewrite <- Hl. symmetry. by apply Hsame.
    - intros Hq.
      assert (Hqf : is_foreground (data a) q = true).
      { destruct (is_foreground (data a) q) eqn:Hqf; [done|].
        apply lookup_lt_Some in Hq as Hlt. rewrite Hlen in Hlt.
        rewrite (Hbg q Hlt Hqf) in Hq. simplify_eq. lia. }
      split; apply Hsame; try done; by rewrite Hl, Hq. }
  exists l. split; [done|]. split; [done|].
  rewrite occurrences_positions. f_equal. apply Permutation_length.
  symmetry. apply NoDup_Permutation; [done| |].
  - apply NoDup_filter, NoDup_seq.
  - intros q. rewrite Hclass. unfold positions.
    rewrite list_elem_of_filter, elem_of_seq. split; [|by intros [? _]].
    intros Hq. split; [done|]. apply lookup_lt_Some in Hq. lia.
Qed.

(** ** Checking a label map *)

Lemma forallb_seq (f : nat → bool) (n p : nat) :
  forallb f (seq 0 n) = true → (p < n)%nat → f p = true.
Proof.
  intros Hf Hp. rewrite forallb_forall in Hf. apply Hf.
  apply list_elem_of_In, elem_of_seq. lia.
Qed.

Lemma grow_connected (a : ndarray) (st : list bool) (p : nat) (k : nat) (r : nat) :
  r ∈ Nat.iter k (grow a st) [p] → connected a st p r.
Proof.
  revert r. induction k as [|k IH]; intros r Hr; simpl in Hr.
  - apply list_elem_of_singleton in Hr as ->. apply rtc_refl.
  - unfold grow at 1 in Hr. apply list_elem_of_filter in Hr as [Hex _].
    apply existsb_exists in Hex as (s & Hs & Hsr).
    apply list_elem_of_In, IH in Hs.
    apply orb_true_iff in Hsr as [Heq|Hadj].
    + apply Nat.eqb_eq in Heq as ->. done.
    + apply andb_true_iff in Hadj as [Hadj Hn].
      apply andb_true_iff in Hadj as [Hfs Hfr].
      eapply rtc_r; [done|]. by repeat split.
Qed.

Lemma check_labels_sound (a : ndarray) (st : list bool) (ccs : list Z) :
  check_labels a st ccs = true → labels_components a st ccs.
Proof.
  unfold check_labels. intros Hc.
  apply andb_true_iff in Hc as [Hc Hreach].
  apply andb_true_iff in Hc as [Hc Hadj].
  apply andb_true_iff in Hc as [Hlen Hzero].
  apply bool_decide_eq_true in Hlen.
  assert (Hstep : ∀ p q, adjacent a st p q → ccs !! p = ccs !! q).
  { intros p q (Hp & Hq & Hn).
    pose proof (forallb_seq _ _ p Hadj (is_foreground_lt _ _ Hp)) as Hrow.
    pose proof (forallb_seq _ _ q Hrow (is_foreground_lt _ _ Hq)) as Hpq.
    simpl in Hpq. rewrite Hp, Hq, Hn in Hpq. simpl in Hpq.
    by apply bool_decide_eq_true in Hpq. }
  split; [done|]. split; [|split].
  - intros p Hlt Hbg. pose proof (forallb_seq _ _ p Hzero Hlt) as Hp.
    simpl in Hp. rewrite Hbg in Hp.
    destruct (ccs !! p) as [l|]; [|done]. f_equal. lia.
  - intros p Hfg.
    pose proof (forallb_seq _ _ p Hzero (is_foreground_lt _ _ Hfg)) as Hp.
    simpl in Hp. rewrite Hfg in Hp.
    destruct (ccs !! p) as [l|]; [|done]. exists l. split; [done|]. lia.
  - intros p q Hp Hq. split.
    + intros Heq.
      pose proof (forallb_seq _ _ p Hreach (is_foreground_lt _ _ Hp)) as Hrow.
      pose proof (forallb_seq _ _ q Hrow (is_foreground_lt _ _ Hq)) as Hpq.
      simpl in Hpq. rewrite Hp, Hq in Hpq.
      rewrite (bool_decide_eq_true_2 _ Heq) in Hpq. simpl in Hpq.
      apply bool_decide_eq_true in Hpq. by eapply grow_connected.
    + intros Hconn. induction Hconn as [|x y z Hxy _ IH]; [done|].
      rewrite (Hstep x y Hxy). apply IH; [|done].
      by destruct Hxy as (_ & ? & _).
Qed.

(** A label class of a label map is a component. *)
Lemma label_class_component (a : ndarray) (st : list bool) (ccs : list Z)
    (p : nat) (l : Z) :
  labels_components a st ccs →
  is_foreground (data a) p = true → ccs !! p = Some l →
  component a st (positions l ccs).
Proof.
  intros (Hlen & Hbg & Hfg & Hsame) Hp Hl.
  split; [apply NoDup_filter, NoDup_seq|].
  exists p. split; [done|]. intros q. unfold positions.
  rewrite list_elem_of_filter, elem_of_seq. split.
  - intros [Hq Hlt].
    assert (Hqf : is_foreground (data a) q = true).
    { destruct (is_foreground (data a) q) eqn:Hqf; [done|].
      rewrite Hbg in Hq by (done || lia). simplify_eq.
      destruct (Hfg p Hp) as (l' & Hl' & Hpos). rewrite Hl in Hl'.
      simplify_eq. lia. }
    split; apply Hsame; try done; by rewrite Hl, Hq.
  - intros [Hpq _].
    pose proof (connected_foreground a st p q Hp Hpq) as Hq.
    assert (Heq : ccs !! p = ccs !! q) by (by apply Hsame).
    rewrite <- Heq. split; [done|].
    apply is_foreground_lt in Hq. lia.
Qed.

(** ** The claims *)

Lemma example_mask_labelled (connectivity : Z) :
  connectivity = 1 ∨ connectivity = 2 →
  labels_components example_mask
    (generate_binary_structure (ndim example_mask) connectivity)
    (labels_of example_mask connectivity).
Proof.
  intros [->| ->]; apply check_labels_sound; vm_compute; reflexivity.
Qed.

(** C1, counterexample.  On the docstring array with [max_size = 6], the
    pixel at flat position 3 is a component of one pixel, and it is still
    set after the run: a component no larger than [max_size] is not
    removed. *)
Lemma small_component_survives :
  ¬ removes_small_keeps_big (state_of example_mask) 0%nat example_mask 6 1 false.
Proof.
  intros Hclaim.
  destruct (run_valid (state_of example_mask) 0%nat example_mask 6 1 false)
    as [s' Hrun]; [done| |].
  { split; [done|]. by intros []. }
  destruct (run_ok (state_of example_mask) s' 0%nat _ example_mask 6 1 false
              eq_refl Hrun) as (_ & _ & Hout & _).
  assert (HC : component example_mask
                 (generate_binary_structure (ndim example_mask) 1) [3%nat]).
  { pose proof (label_class_component example_mask _ _ 3%nat 1
                  (example_mask_labelled 1 (or_introl eq_refl)) eq_refl eq_refl)
      as HC.
    by vm_compute positions in HC. }
  destruct (Hclaim _ _ _ Hrun Hout _ HC) as [Hsmall _].
  specialize (Hsmall ltac:(simpl; lia) 3%nat ltac:(by left)).
  vm_compute in Hsmall. done.
Qed.

(** C1, amended.  For a boolean array and [max_size <> 0], with a label
    map that labels the connected components: every component of more
    than [max_size] pixels is zeroed in the returned array, and every
    component of at most [max_size] pixels is kept as it was. *)
Theorem big_components_removed `{Labeler} (s : state) (ar : loc) (a : ndarray)
    (max_size connectivity : Z) (in_place : bool) :
  objs s !! ar = Some a →
  dtype_of a = dt_bool →
  max_size ≠ 0 →
  labels_components a (generate_binary_structure (ndim a) connectivity)
                    (labels_of a connectivity) →
  ∃ out s' o,
    remove_big_objects ar max_size connectivity in_place s = Some (Ok out, s')
    ∧ objs s' !! out = Some o
    ∧ ∀ C, component a (generate_binary_structure (ndim a) connectivity) C →
        (max_size < Z.of_nat (length C) → ∀ p, p ∈ C → data o !! p = Some 0)
        ∧ (Z.of_nat (length C) ≤ max_size →
           ∀ p, p ∈ C → data o !! p = data a !! p).
Proof.
  intros Ha Hd Hm Hlab.
  destruct (run_valid s ar a max_size connectivity in_place Ha) as [s' Hrun].
  { split; [by unfold supported; rewrite Hd|]. by intros []. }
  destruct (run_ok _ _ _ _ _ _ _ _ Ha Hrun) as (_ & _ & Hout & _).
  eexists _, s', _. split; [done|]. split; [done|].
  intros C HC.
  destruct (component_label_class _ _ _ _ Hlab HC) as (l & Hpos & Hclass & Hcount).
  assert (Hres : ∀ p, p ∈ C →
            data (with_data a (result_data a max_size connectivity)) !! p
            = (λ x, if max_size <? Z.of_nat (length C) then 0 else x) <$> data a !! p).
  { intros p Hp. apply Hclass in Hp as Hl.
    apply lookup_lt_Some in Hl as Hlt. destruct Hlab as (Hlen & _).
    rewrite Hlen in Hlt. apply lookup_lt_is_Some_2 in Hlt as [x Hx].
    simpl. unfold result_data, label_image.
    rewrite (proj2 (Z.eqb_neq _ _) Hm), bool_decide_eq_true_2 by done.
    rewrite (filtered_lookup _ _ _ _ _ _ Hl Hx), Hx, Hcount. done. }
  split; intros Hsize p Hp; rewrite (Hres p Hp).
  - replace (max_size <? Z.of_nat (length C)) with true by (symmetry; lia).
    apply Hclass, lookup_lt_Some in Hp. destruct Hlab as (Hlen & _).
    rewrite Hlen in Hp. by apply lookup_lt_is_Some_2 in Hp as [x ->].
  - replace (max_size <? Z.of_nat (length C)) with false by (symmetry; lia).
    by destruct (data a !! p).
Qed.

Lemma big_components_removed_witness :
  ∃ out s' o,
    remove_big_objects 0%nat 5 1 true (state_of example_mask) = Some (Ok out, s')
    ∧ objs s' !! out = Some o
    ∧ ∀ C, component example_mask (generate_binary_structure 2 1) C →
        (5 < Z.of_nat (length C) → ∀ p, p ∈ C → data o !! p = Some 0)
        ∧ (Z.of_nat (length C) ≤ 5 →
           ∀ p, p ∈ C → data o !! p = data example_mask !! p).
Proof.
  apply (big_components_removed (state_of example_mask) 0%nat example_mask 5 1 true).
  - reflexivity.
  - reflexivity.
  - lia.
  - apply check_labels_sound. vm_compute. reflexivity.
Defined.

(** A run that returns past the shortcut has histogrammed its label map,
    so no label is negative. *)
Lemma run_ok_labels_nonneg `{Labeler} (s s' : state) (ar out : loc) (a : ndarray)
    (max_size connectivity : Z) (in_place : bool) :
  objs s !! ar = Some a →
  max_size ≠ 0 →
  remove_big_objects ar max_size connectivity in_place s = Some (Ok out, s') →
  Forall (λ v, 0 ≤ v) (label_image a connectivity).
Proof.
  intros Ha Hm Hrun. rewrite (run_cases s ar a _ _ _ Ha) in Hrun.
  rewrite (proj2 (Z.eqb_neq _ _) Hm) in Hrun.
  unfold label_image, labels_of.
  destruct (supported (dtype_of a)); simpl in Hrun; [|done].
  case_bool_decide as Hb; [apply label_map_nonneg|].
  destruct (forallb _ _) eqn:Hf; [|done]. by apply forallb_nonneg.
Qed.

(** C2.  For [max_size > 0], in the array a run returns, a pixel is zero
    when the number of positions carrying its label, which is the
    histogram entry of the label, exceeds [max_size], and keeps its value
    otherwise. *)
Theorem zeroes_labels_over_max_size `{Labeler} (s s' : state) (ar out : loc)
    (a : ndarray) (max_size connectivity : Z) (in_place : bool) :
  objs s !! ar = Some a →
  0 < max_size →
  remove_big_objects ar max_size connectivity in_place s = Some (Ok out, s') →
  ∃ o,
    objs s' !! out = Some o
    ∧ length (data o) = length (data a)
    ∧ ∀ i x, data a !! i = Some x →
        ∃ l,
          label_image a connectivity !! i = Some l
          ∧ let count :=
              Z.of_nat (length (filter (λ y, y = l) (label_image a connectivity))) in
            histogram (label_image a connectivity) !! Z.to_nat l = Some count
            ∧ (max_size < count → data o !! i = Some 0)
            ∧ (count ≤ max_size → data o !! i = Some x).
Proof.
  intros Ha Hm Hrun.
  destruct (run_ok _ _ _ _ _ _ _ _ Ha Hrun) as (_ & _ & Hout & _).
  assert (Hm0 : max_size ≠ 0) by lia.
  pose proof (run_ok_labels_nonneg _ _ _ _ _ _ _ _ Ha Hm0 Hrun) as Hnn.
  eexists. split; [done|]. split; [apply result_data_length|].
  intros i x Hx.
  destruct (lookup_lt_is_Some_2 (label_image a connectivity) i) as [l Hl].
  { rewrite label_image_length. by apply lookup_lt_Some in Hx. }
  destruct (histogram_lookup _ l Hnn) as [_ Hcount].
  { by apply list_elem_of_lookup_2 in Hl. }
  exists l. split; [done|]. simpl.
  change (Z.of_nat (length (filter (λ y, y = l) (label_image a connectivity))))
    with (occurrences l (label_image a connectivity)).
  split; [done|]. unfold result_data.
  replace (max_size =? 0) with false by (symmetry; lia).
  rewrite (filtered_lookup _ _ _ _ _ _ Hl Hx).
  split; intros Hc.
  - by replace (max_size <? _) with true by (symmetry; lia).
  - by replace (max_size <? _) with false by (symmetry; lia).
Qed.

Lemma zeroes_labels_over_max_size_witness :
  ∃ o,
    objs (final_state in_place_run (state_of example_labels)) !! 0%nat = Some o
    ∧ length (data o) = length (data example_labels)
    ∧ ∀ i x, data example_labels !! i = Some x →
        ∃ l,
          label_image example_labels 1 !! i = Some l
          ∧ let count :=
              Z.of_nat (length (filter (λ y, y = l) (label_image example_labels 1))) in
            histogram (label_image example_labels 1) !! Z.to_nat l = Some count
            ∧ (2 < count → data o !! i = Some 0)
            ∧ (count ≤ 2 → data o !! i = Some x).
Proof.
  apply (zeroes_labels_over_max_size (state_of example_labels)
           (final_state in_place_run (state_of example_labels))
           0%nat 0%nat example_labels 2 1 true).
  - reflexivity.
  - lia.
  - vm_compute. reflexivity.
Defined.

(** C3, counterexample.  On the docstring array with [max_size = 6] and
    connectivity 1 the function does not return the block of six alone. *)
Lemma example_isolated_pixels_survive : ¬ example_keeps_only_block.
Proof. unfold example_keeps_only_block. vm_compute. discriminate. Qed.

(** C3, amended.  On the docstring array with [max_size = 6] and
    connectivity 1 the returned array equals the input, in place or not:
    its components, the two single pixels at flat positions 3 and 14 and
    the block of six, have at most six pixels each, and all are kept. *)
Theorem example_output_unchanged :
  (∀ in_place,
     returned_array (remove_big_objects 0%nat 6 1 in_place (state_of example_mask))
     = Some example_mask)
  ∧ component example_mask (generate_binary_structure 2 1) [3%nat]
  ∧ component example_mask (generate_binary_structure 2 1) [14%nat]
  ∧ component example_mask (generate_binary_structure 2 1)
      [5; 6; 7; 10; 11; 12]%nat.
Proof.
  split; [by intros []; vm_compute|].
  pose proof (example_mask_labelled 1 (or_introl eq_refl)) as Hlab.
  pose proof (label_class_component example_mask _ _ 3%nat 1 Hlab eq_refl eq_refl) as H1.
  pose proof (label_class_component example_mask _ _ 5%nat 2 Hlab eq_refl eq_refl) as H2.
  pose proof (label_class_component example_mask _ _ 14%nat 3 Hlab eq_refl eq_refl) as H3.
  vm_compute positions in H1, H2, H3. done.
Qed.

(** C4.  With [max_size = 0] and a supported element type the function
    returns its working buffer, the input itself or its copy, holding
    exactly the input array. *)
Theorem max_size_zero_noop `{Labeler} (s : state) (ar : loc) (a : ndarray)
    (connectivity : Z) (in_place : bool) :
  objs s !! ar = Some a →
  supported (dtype_of a) = true →
  ∃ out s',
    remove_big_objects ar 0 connectivity in_place s = Some (Ok out, s')
    ∧ out = working_loc s ar in_place
    ∧ objs s' !! out = Some a
    ∧ objs s' !! ar = Some a.
Proof.
  intros Ha Hsup. eexists _, _. split; [by apply run_shortcut|].
  split; [done|]. split.
  - by apply working_lookup.
  - by apply working_lookup_input.
Qed.

Lemma max_size_zero_noop_witness :
  ∃ out s',
    remove_big_objects 0%nat 0 1 false (state_of example_labels) = Some (Ok out, s')
    ∧ out = working_loc (state_of example_labels) 0%nat false
    ∧ objs s' !! out = Some example_labels
    ∧ objs s' !! 0%nat = Some example_labels.
Proof.
  apply (max_size_zero_noop (state_of example_labels) 0%nat example_labels 1 false).
  - reflexivity.
  - reflexivity.
Defined.

(** C5, the divergence.  On a one-pixel labelled image with
    [max_size = 0], the function returns the pixel unchanged through the
    shortcut, while the label, histogram and mask path zeroes it: the
    pixel's label occurs once, and 1 > 0. *)
Theorem shortcut_is_not_the_full_path :
  data <$> returned_array
             (remove_big_objects 0%nat 0 1 false (state_of example_single))
  = Some [1]
  ∧ data <$> returned_array
               (remove_big_objects_full 0%nat 0 1 false (state_of example_single))
    = Some [0].
Proof. split; vm_compute; reflexivity. Qed.

(** C6.  A run that returns with [in_place = True] returns the input
    object itself, holding the result; with [in_place = False] it returns
    another object and the input object still holds the input array. *)
Theorem in_place_identity `{Labeler} (s s' : state) (ar out : loc) (a : ndarray)
    (max_size connectivity : Z) (in_place : bool) :
  objs s !! ar = Some a →
  remove_big_objects ar max_size connectivity in_place s = Some (Ok out, s') →
  if in_place
  then out = ar
       ∧ objs s' !! ar = Some (with_data a (result_data a max_size connectivity))
  else out ≠ ar
       ∧ objs s' !! ar = Some a
       ∧ objs s' !! out = Some (with_data a (result_data a max_size connectivity)).
Proof.
  intros Ha Hrun.
  destruct (run_ok _ _ _ _ _ _ _ _ Ha Hrun) as (_ & -> & Hout & Hin).
  destruct in_place.
  - by split.
  - split; [by apply (working_loc_fresh s ar a)|]. split; [by apply Hin|done].
Qed.

Lemma in_place_identity_witness :
  (0%nat = 0%nat
   ∧ objs (final_state in_place_run (state_of example_labels)) !! 0%nat
     = Some (with_data example_labels (result_data example_labels 2 1)))
  ∧ (1%nat ≠ 0%nat
     ∧ objs (final_state copy_run (state_of example_labels)) !! 0%nat
       = Some example_labels
     ∧ objs (final_state copy_run (state_of example_labels)) !! 1%nat
       = Some (with_data example_labels (result_data example_labels 2 1))).
Proof.
  split.
  - apply (in_place_identity (state_of example_labels)
             (final_state in_place_run (state_of example_labels))
             0%nat 0%nat example_labels 2 1 true).
    + reflexivity.
    + vm_compute. reflexivity.
  - apply (in_place_identity (state_of example_labels)
             (final_state copy_run (state_of example_labels))
             0%nat 1%nat example_labels 2 1 false).
    + reflexivity.
    + vm_compute. reflexivity.
Defined.

(** With a supported element type the function returns its working
    buffer or raises the value error of the histogram step. *)
Lemma run_supported `{Labeler} (s : state) (ar : loc) (a : ndarray)
    (max_size connectivity : Z) (in_place : bool) :
  objs s !! ar = Some a →
  supported (dtype_of a) = true →
  (∃ s', remove_big_objects ar max_size connectivity in_place s
         = Some (Ok (working_loc s ar in_place), s'))
  ∨ remove_big_objects ar max_size connectivity in_place s
    = Some (Raise (ValueError negative_labels_msg), working_state s a in_place).
Proof.
  intros Ha Hsup. rewrite (run_cases s ar a _ _ _ Ha), Hsup. simpl.
  repeat case_match; eauto.
Qed.

(** C7.  The function raises a type error exactly when the element type
    of the input is neither boolean nor integer, and such a run leaves
    the state, the input array included, as it found it. *)
Theorem type_error_iff_unsupported `{Labeler} (s : state) (ar : loc) (a : ndarray)
    (max_size connectivity : Z) (in_place : bool) :
  objs s !! ar = Some a →
  ((∃ msg s', remove_big_objects ar max_size connectivity in_place s
              = Some (Raise (TypeError msg), s'))
   ↔ dtype_of a ≠ dt_bool ∧ issubdtype_integer (dtype_of a) = false)
  ∧ (∀ msg s', remove_big_objects ar max_size connectivity in_place s
               = Some (Raise (TypeError msg), s') → s' = s).
Proof.
  intros Ha.
  assert (Hsup : supported (dtype_of a) = false
                 ↔ dtype_of a ≠ dt_bool ∧ issubdtype_integer (dtype_of a) = false).
  { unfold supported. rewrite orb_false_iff, bool_decide_eq_false. done. }
  destruct (supported (dtype_of a)) eqn:Hs.
  - assert (Hno : ∀ msg s',
              remove_big_objects ar max_size connectivity in_place s
              ≠ Some (Raise (TypeError msg), s')).
    { intros msg s' Hrun.
      destruct (run_supported s ar a max_size connectivity in_place Ha Hs)
        as [[s'' Hok]|Hval]; congruence. }
    split.
    + split.
      * intros (msg & s' & Hrun). by apply Hno in Hrun.
      * intros Hd. apply Hsup in Hd. done.
    + intros msg s' Hrun. by apply Hno in Hrun.
  - rewrite (run_unsupported s ar a _ _ _ Ha Hs). split.
    + split; [intros _; by apply Hsup|]. intros _. by eexists _, _.
    + intros msg s' Hrun. by simplify_eq.
Qed.

Lemma type_error_iff_unsupported_witness :
  ((∃ msg s', remove_big_objects 0%nat 64 1 false (state_of example_float)
              = Some (Raise (TypeError msg), s'))
   ↔ dtype_of example_float ≠ dt_bool
     ∧ issubdtype_integer (dtype_of example_float) = false)
  ∧ (∀ msg s', remove_big_objects 0%nat 64 1 false (state_of example_float)
               = Some (Raise (TypeError msg), s') → s' = state_of example_float).
Proof.
  apply (type_error_iff_unsupported (state_of example_float) 0%nat
           example_float 64 1 false).
  reflexivity.
Defined.

(** C8.  For an integer array with a negative element and
    [max_size > 0], the function raises the value error of the histogram
    step; the working buffer, the input or its copy, still holds the
    input array, and so does the input object. *)
Theorem negative_labels_value_error `{Labeler} (s : state) (ar : loc) (a : ndarray)
    (max_size connectivity : Z) (in_place : bool) (v : Z) :
  objs s !! ar = Some a →
  issubdtype_integer (dtype_of a) = true →
  v ∈ data a → v < 0 →
  0 < max_size →
  ∃ s',
    remove_big_objects ar max_size connectivity in_place s
    = Some (Raise (ValueError negative_labels_msg), s')
    ∧ objs s' !! working_loc s ar in_place = Some a
    ∧ objs s' !! ar = Some a.
Proof.
  intros Ha Hint Hv Hneg Hm. rewrite (run_cases s ar a _ _ _ Ha).
  assert (Hb : dtype_of a ≠ dt_bool) by (by destruct (dtype_of a)).
  unfold supported. rewrite Hint, orb_true_r. simpl.
  replace (max_size =? 0) with false by (symmetry; lia).
  rewrite bool_decide_eq_false_2 by done.
  destruct (forallb _ _) eqn:Hf.
  { apply forallb_nonneg in Hf. rewrite Forall_forall in Hf.
    apply Hf in Hv. lia. }
  eexists. split; [done|]. split.
  - by apply working_lookup.
  - by apply working_lookup_input.
Qed.

Lemma negative_labels_value_error_witness :
  ∃ s',
    remove_big_objects 0%nat 64 1 false (state_of example_negative)
    = Some (Raise (ValueError negative_labels_msg), s')
    ∧ objs s' !! working_loc (state_of example_negative) 0%nat false
      = Some example_negative
    ∧ objs s' !! 0%nat = Some example_negative.
Proof.
  apply (negative_labels_value_error (state_of example_negative) 0%nat
           example_negative 64 1 false (-1)).
  - reflexivity.
  - reflexivity.
  - vm_compute. right. left.
  - lia.
  - lia.
Defined.

(** C9.  A run that returns gives an array with the element type and the
    shape of the input, and every position that holds 0 in the input
    holds 0 in the result. *)
Theorem shape_dtype_background_kept `{Labeler} (s s' : state) (ar out : loc)
    (a : ndarray) (max_size connectivity : Z) (in_place : bool) :
  objs s !! ar = Some a →
  remove_big_objects ar max_size connectivity in_place s = Some (Ok out, s') →
  ∃ o, objs s' !! out = Some o
       ∧ dtype_of o = dtype_of a
       ∧ shape o = shape a
       ∧ length (data o) = length (data a)
       ∧ ∀ i, data a !! i = Some 0 → data o !! i = Some 0.
Proof.
  intros Ha Hrun.
  destruct (run_ok _ _ _ _ _ _ _ _ Ha Hrun) as (_ & _ & Hout & _).
  eexists. split; [done|]. simpl.
  split; [done|]. split; [done|]. split; [apply result_data_length|].
  intros i Hi.
  by destruct (result_data_lookup a max_size connectivity i 0 Hi).
Qed.

Lemma shape_dtype_background_kept_witness :
  ∃ o, objs (final_state copy_run (state_of example_labels)) !! 1%nat = Some o
       ∧ dtype_of o = dtype_of example_labels
       ∧ shape o = shape example_labels
       ∧ length (data o) = length (data example_labels)
       ∧ ∀ i, data example_labels !! i = Some 0 → data o !! i = Some 0.
Proof.
  apply (shape_dtype_background_kept (state_of example_labels)
           (final_state copy_run (state_of example_labels))
           0%nat 1%nat example_labels 2 1 false).
  - reflexivity.
  - vm_compute. reflexivity.
Defined.

(** C10.  A run that returns gives an array of the input's size in which
    every element is the input's element at that position or 0. *)
Theorem elements_kept_or_zeroed `{Labeler} (s s' : state) (ar out : loc)
    (a : ndarray) (max_size connectivity : Z) (in_place : bool) :
  objs s !! ar = Some a →
  remove_big_objects ar max_size connectivity in_place s = Some (Ok out, s') →
  ∃ o, objs s' !! out = Some o
       ∧ length (data o) = length (data a)
       ∧ ∀ i x, data a !! i = Some x →
           data o !! i = Some x ∨ data o !! i = Some 0.
Proof.
  intros Ha Hrun.
  destruct (run_ok _ _ _ _ _ _ _ _ Ha Hrun) as (_ & _ & Hout & _).
  eexists. split; [done|]. simpl. split; [apply result_data_length|].
  intros i x Hx. by apply result_data_lookup.
Qed.

Lemma elements_kept_or_zeroed_witness :
  ∃ o, objs (final_state in_place_run (state_of example_labels)) !! 0%nat = Some o
       ∧ length (data o) = length (data example_labels)
       ∧ ∀ i x, data example_labels !! i = Some x →
           data o !! i = Some x ∨ data o !! i = Some 0.
Proof.
  apply (elements_kept_or_zeroed (state_of example_labels)
           (final_state in_place_run (state_of example_labels))
           0%nat 0%nat example_labels 2 1 true).
  - reflexivity.
  - vm_compute. reflexivity.
Defined.

(** Away from [max_size = 0] the shortcut is never taken, and the function
    is its full path. *)
Lemma full_path_agrees `{Labeler} (s : state) (ar : loc)
    (max_size connectivity : Z) (in_place : bool) :
  max_size ≠ 0 →
  remove_big_objects_full ar max_size connectivity in_place s
  = remove_big_objects ar max_size connectivity in_place s.
Proof.
  intros Hm. rewrite remove_big_objects_unfold, remove_big_objects_full_unfold.
  unfold mbind, M_bind, bind.
  destruct (_check_dtype_supported ar s) as [[[[]|e] s1]|]; [|done..].
  destruct ((if in_place then ret ar else ndarray_copy ar) s1)
    as [[[out|e] s2]|]; [|done..].
  by rewrite (proj2 (Z.eqb_neq _ _) Hm).
Qed.

(** ** Further properties of a run *)

Lemma working_state_warnings (s : state) (a : ndarray) (in_place : bool) :
  warnings (working_state s a in_place) = warnings s.
Proof. by destruct in_place. Qed.

Lemma working_state_old (s : state) (a : ndarray) (in_place : bool) (l : loc) :
  is_Some (objs s !! l) →
  objs (working_state s a in_place) !! l = objs s !! l.
Proof.
  intros Hl. destruct in_place; [done|]. simpl.
  rewrite lookup_insert_ne; [done|].
  intros Heq. rewrite <- Heq, fresh_lookup in Hl. by destruct Hl.
Qed.

Lemma working_loc_other (s : state) (ar : loc) (in_place : bool) (l : loc) :
  is_Some (objs s !! l) → l ≠ ar ∨ in_place = false →
  working_loc s ar in_place ≠ l.
Proof.
  intros Hl Hor Heq. unfold working_loc in Heq. destruct in_place.
  - destruct Hor; congruence.
  - rewrite <- Heq, fresh_lookup in Hl. by destruct Hl.
Qed.

(** X1.  With [in_place = False], whatever the outcome of the run, every
    array that was in the store before the call, the input included, is
    left as it was: the only writes go to the copy and to the label
    buffer, both new. *)
Theorem copy_mode_writes_no_old_array `{Labeler} (s s' : state) (ar : loc)
    (a : ndarray) (max_size connectivity : Z) (r : outcome loc) (l : loc) :
  objs s !! ar = Some a →
  remove_big_objects ar max_size connectivity false s = Some (r, s') →
  is_Some (objs s !! l) →
  objs s' !! l = objs s !! l.
Proof.
  intros Ha Hrun Hl. rewrite (run_cases s ar a _ _ _ Ha) in Hrun.
  pose proof (working_state_old s a false l Hl) as Hold.
  pose proof (working_loc_other s ar false l Hl (or_intror eq_refl)) as Hw.
  assert (Hccs : fresh (dom (objs (working_state s a false))) ≠ l).
  { intros Heq. rewrite <- Hold, <- Heq, fresh_lookup in Hl. by destruct Hl. }
  repeat case_match; simplify_eq; simpl;
    rewrite ?lookup_insert_ne by done; done.
Qed.

Lemma copy_mode_writes_no_old_array_witness :
  objs (final_state (remove_big_objects 0%nat 2 1 false two_arrays) two_arrays)
    !! 0%nat
  = objs two_arrays !! 0%nat.
Proof.
  apply (copy_mode_writes_no_old_array two_arrays _ 0%nat example_labels 2 1
           (Ok 2%nat) 0%nat).
  - reflexivity.
  - vm_compute. reflexivity.
  - vm_compute. eexists. reflexivity.
Defined.

(** X2.  With [in_place = False] the returned object is one that did not
    exist before the call. *)
Theorem copy_is_new `{Labeler} (s s' : state) (ar out : loc) (a : ndarray)
    (max_size connectivity : Z) :
  objs s !! ar = Some a →
  remove_big_objects ar max_size connectivity false s = Some (Ok out, s') →
  objs s !! out = None ∧ is_Some (objs s' !! out).
Proof.
  intros Ha Hrun.
  destruct (run_ok _ _ _ _ _ _ _ _ Ha Hrun) as (_ & -> & Hout & _).
  split; [apply fresh_lookup|by eexists].
Qed.

Lemma copy_is_new_witness :
  objs two_arrays !! 2%nat = None
  ∧ is_Some (objs (final_state (remove_big_objects 0%nat 2 1 false two_arrays)
                               two_arrays) !! 2%nat).
Proof.
  apply (copy_is_new two_arrays _ 0%nat 2%nat example_labels 2 1).
  - reflexivity.
  - vm_compute. reflexivity.
Defined.

(** X3.  [in_place] changes which object is returned, never what it
    holds: when the in-place run and the copying run both return, the
    arrays they return are equal. *)
Theorem in_place_same_content `{Labeler} (s s1 s2 : state) (ar o1 o2 : loc)
    (a : ndarray) (max_size connectivity : Z) :
  objs s !! ar = Some a →
  remove_big_objects ar max_size connectivity true s = Some (Ok o1, s1) →
  remove_big_objects ar max_size connectivity false s = Some (Ok o2, s2) →
  o1 ≠ o2 ∧ is_Some (objs s1 !! o1) ∧ objs s1 !! o1 = objs s2 !! o2.
Proof.
  intros Ha Hrun1 Hrun2.
  destruct (run_ok _ _ _ _ _ _ _ _ Ha Hrun1) as (_ & -> & Hout1 & _).
  destruct (run_ok _ _ _ _ _ _ _ _ Ha Hrun2) as (_ & -> & Hout2 & _).
  split; [|split].
  - intros Heq. by apply (working_loc_fresh s ar a).
  - by eexists.
  - by rewrite Hout1, Hout2.
Qed.

Lemma in_place_same_content_witness :
  0%nat ≠ 2%nat
  ∧ is_Some (objs (final_state (remove_big_objects 0%nat 2 1 true two_arrays)
                               two_arrays) !! 0%nat)
  ∧ objs (final_state (remove_big_objects 0%nat 2 1 true two_arrays) two_arrays)
      !! 0%nat
    = objs (final_state (remove_big_objects 0%nat 2 1 false two_arrays) two_arrays)
        !! 2%nat.
Proof.
  apply (in_place_same_content two_arrays _ _ 0%nat 0%nat 2%nat example_labels 2 1).
  - reflexivity.
  - vm_compute. reflexivity.
  - vm_compute. reflexivity.
Defined.

(** X4.  For an array that is not boolean, the labelling primitive and
    the connectivity play no part: two runs that differ only in them are
    the same run. *)
Theorem labelled_input_ignores_connectivity (L1 L2 : Labeler) (s : state)
    (ar : loc) (a : ndarray) (max_size c1 c2 : Z) (in_place : bool) :
  objs s !! ar = Some a →
  dtype_of a ≠ dt_bool →
  @remove_big_objects L1 ar max_size c1 in_place s
  = @remove_big_objects L2 ar max_size c2 in_place s.
Proof.
  intros Ha Hd.
  rewrite (@run_cases L1 s ar a _ _ _ Ha), (@run_cases L2 s ar a _ _ _ Ha).
  rewrite bool_decide_eq_false_2 by done. done.
Qed.

Lemma labelled_input_ignores_connectivity_witness :
  @remove_big_objects flood_labeler 0%nat 2 1 false two_arrays
  = @remove_big_objects flood_labeler 0%nat 2 2 false two_arrays.
Proof.
  apply (labelled_input_ignores_connectivity flood_labeler flood_labeler
           two_arrays 0%nat example_labels 2 1 2 false).
  - reflexivity.
  - discriminate.
Defined.

(** X5.  A boolean input never raises the value error of the histogram
    step: the labels the labelling primitive writes are not negative, so
    the request to relabel the input is never made of a boolean mask. *)
Theorem boolean_input_never_asked_to_relabel `{Labeler} (s : state) (ar : loc)
    (a : ndarray) (max_size connectivity : Z) (in_place : bool) :
  objs s !! ar = Some a →
  dtype_of a = dt_bool →
  ¬ ∃ s', remove_big_objects ar max_size connectivity in_place s
          = Some (Raise (ValueError negative_labels_msg), s').
Proof.
  intros Ha Hd [s' Hrun].
  destruct (run_valid s ar a max_size connectivity in_place Ha) as [s'' Hok].
  { split; [by unfold supported; rewrite Hd|]. by intros []. }
  congruence.
Qed.

Lemma boolean_input_never_asked_to_relabel_witness :
  ¬ ∃ s', remove_big_objects 0%nat 5 2 true (state_of example_mask)
          = Some (Raise (ValueError negative_labels_msg), s').
Proof.
  apply (boolean_input_never_asked_to_relabel (state_of example_mask) 0%nat
           example_mask 5 2 true).
  - reflexivity.
  - reflexivity.
Defined.

(** X6.  On an integer array with a negative element, the value error of
    the histogram step is raised exactly when [max_size] is not 0, a
    negative [max_size] included: with [max_size = 0] the shortcut
    returns before the labels are looked at. *)
Theorem negative_labels_caught_unless_zero `{Labeler} (s : state) (ar : loc)
    (a : ndarray) (max_size connectivity : Z) (in_place : bool) :
  objs s !! ar = Some a →
  issubdtype_integer (dtype_of a) = true →
  Exists (λ v, v < 0) (data a) →
  (∃ s', remove_big_objects ar max_size connectivity in_place s
         = Some (Raise (ValueError negative_labels_msg), s'))
  ↔ max_size ≠ 0.
Proof.
  intros Ha Hint Hex. rewrite (run_cases s ar a _ _ _ Ha).
  assert (Hb : dtype_of a ≠ dt_bool) by (by destruct (dtype_of a)).
  assert (Hf : forallb (λ v, 0 <=? v) (data a) = false).
  { apply not_true_iff_false. rewrite forallb_nonneg. intros Hall.
    rewrite Exists_exists in Hex. destruct Hex as (v & Hv & Hlt).
    rewrite Forall_forall in Hall. apply Hall in Hv. lia. }
  unfold supported. rewrite Hint, orb_true_r. simpl.
  rewrite bool_decide_eq_false_2, Hf by done.
  destruct (max_size =? 0) eqn:Hm.
  - apply Z.eqb_eq in Hm. split; [by intros [? ?]|done].
  - apply Z.eqb_neq in Hm. split; [done|]. intros _. by eexists.
Qed.

Lemma negative_labels_caught_unless_zero_witness :
  (∃ s', remove_big_objects 0%nat (-3) 1 true (state_of example_negative)
         = Some (Raise (ValueError negative_labels_msg), s'))
  ↔ -3 ≠ 0.
Proof.
  apply (negative_labels_caught_unless_zero (state_of example_negative) 0%nat
           example_negative (-3) 1 true).
  - reflexivity.
  - reflexivity.
  - vm_compute. right. left. reflexivity.
Defined.

Lemma max_value_nonneg (x : list Z) : 0 ≤ max_value x.
Proof. induction x; simpl; lia. Qed.

Lemma histogram_two_buckets (x : list Z) :
  length (histogram x) = 2%nat ↔ max_value x = 1.
Proof.
  pose proof (max_value_nonneg x). unfold histogram.
  destruct x as [|y x']; [simpl in *; split; [done|lia]|].
  rewrite length_map, length_seq. lia.
Qed.

Lemma warned_largest_label (s : state) (x : list Z) :
  warned s (histogram x)
  = if decide (max_value x = 1) then warnings s ++ [one_label_msg] else warnings s.
Proof.
  unfold warned. pose proof (histogram_two_buckets x) as Htwo.
  destruct (decide (length (histogram x) = 2%nat)) as [Hl|Hl],
           (decide (max_value x = 1)) as [Hm|Hm]; try done.
  - by apply Htwo in Hl.
  - by apply Htwo in Hm.
Qed.

Lemma zip_with_mask_const (f : Z → bool) (b : bool) (labels d : list Z) :
  length labels = length d →
  (∀ l, l ∈ labels → f l = b) →
  zip_with (λ l x, if f l then 0 else x) labels d
  = if b then replicate (length d) 0 else d.
Proof.
  revert d. induction labels as [|l labels IH]; intros [|x d] Hlen Hf;
    simplify_eq/=; [by destruct b|].
  rewrite IH by (done || intros; apply Hf; by right).
  rewrite (Hf l) by (by left). by destruct b.
Qed.

Lemma occurrences_le_length (v : Z) (x : list Z) :
  occurrences v x ≤ Z.of_nat (length x).
Proof. unfold occurrences. pose proof (length_filter (λ y, y = v) x). lia. Qed.

Lemma filtered_self (m : Z) (d : list Z) :
  filtered m d d = keep_or_zero m d <$> d.
Proof. unfold filtered. by rewrite zip_with_diag. Qed.

Lemma occurrences_kept (m : Z) (d : list Z) (x : Z) :
  x ≠ 0 → occurrences x d ≤ m →
  occurrences x (keep_or_zero m d <$> d) = occurrences x d.
Proof.
  intros Hx Hle. unfold occurrences. f_equal.
  assert (Hsub : ∀ d', length (filter (λ y, y = x) (keep_or_zero m d <$> d'))
                       = length (filter (λ y, y = x) d')); [|apply Hsub].
  intros d'. induction d' as [|y d' IH]; [done|].
  rewrite fmap_cons, !filter_cons.
  assert (Hy : keep_or_zero m d y = x ↔ y = x).
  { unfold keep_or_zero. split.
    - destruct (m <? occurrences y d); congruence.
    - intros ->. by replace (m <? occurrences x d) with false by (symmetry; lia). }
  destruct (decide (keep_or_zero m d y = x)) as [Hk|Hk],
           (decide (y = x)) as [Hyx|Hyx]; simpl; rewrite ?IH; try done.
  - by apply Hy in Hk.
  - by apply Hy in Hyx.
Qed.

Lemma keep_or_zero_gt (m : Z) (d : list Z) (x : Z) :
  m < occurrences x d → keep_or_zero m d x = 0.
Proof.
  intros Hgt. unfold keep_or_zero.
  by replace (m <? occurrences x d) with true by (symmetry; lia).
Qed.

Lemma keep_or_zero_le (m : Z) (d : list Z) (x : Z) :
  occurrences x d ≤ m → keep_or_zero m d x = x.
Proof.
  intros Hle. unfold keep_or_zero.
  by replace (m <? occurrences x d) with false by (symmetry; lia).
Qed.

Lemma keep_or_zero_0 (m : Z) (d : list Z) : keep_or_zero m d 0 = 0.
Proof. unfold keep_or_zero. by destruct (_ <? _). Qed.

Lemma filtered_twice (m1 m2 : Z) (d : list Z) :
  filtered m2 (filtered m1 d d) (filtered m1 d d)
  = filtered (Z.min m1 m2) d d.
Proof.
  rewrite !filtered_self, <- list_fmap_compose.
  apply list_fmap_ext. intros _ x _. unfold compose.
  destruct (decide (m1 < occurrences x d)) as [Hgt|Hle].
  - rewrite (keep_or_zero_gt m1 d x) by done.
    rewrite keep_or_zero_0. symmetry. apply keep_or_zero_gt. lia.
  - rewrite (keep_or_zero_le m1 d x) by lia.
    destruct (decide (x = 0)) as [->|Hx]; [by rewrite !keep_or_zero_0|].
    destruct (decide (m2 < occurrences x d)) as [Hgt2|Hle2].
    + rewrite keep_or_zero_gt by (rewrite occurrences_kept by (done || lia); done).
      symmetry. apply keep_or_zero_gt. lia.
    + rewrite keep_or_zero_le by (rewrite occurrences_kept by (done || lia); lia).
      symmetry. apply keep_or_zero_le. lia.
Qed.

(** X7.  On an accepted input with [max_size <> 0], the run adds the one
    warning exactly when the largest label of the label map is 1, for a
    boolean input with a single component as for a labelled image with a
    single label, and adds nothing otherwise. *)
Theorem warns_iff_single_label `{Labeler} (s s' : state) (ar : loc) (a : ndarray)
    (max_size connectivity : Z) (in_place : bool) (r : outcome loc) :
  objs s !! ar = Some a →
  valid_input a →
  max_size ≠ 0 →
  remove_big_objects ar max_size connectivity in_place s = Some (r, s') →
  warnings s'
  = if decide (max_value (label_image a connectivity) = 1)
    then warnings s ++ [one_label_msg]
    else warnings s.
Proof.
  intros Ha [Hsup Hnn] Hm Hrun. rewrite (run_cases s ar a _ _ _ Ha) in Hrun.
  rewrite Hsup, (proj2 (Z.eqb_neq _ _) Hm) in Hrun. simpl in Hrun.
  unfold label_image. case_bool_decide as Hb.
  - simplify_eq. simpl.
    by rewrite warned_largest_label, working_state_warnings.
  - rewrite (proj2 (forallb_nonneg _) (Hnn Hb)) in Hrun. simplify_eq. simpl.
    by rewrite warned_largest_label, working_state_warnings.
Qed.

Lemma warns_iff_single_label_witness :
  warnings (final_state (remove_big_objects 0%nat 5 1 true (state_of example_one_label))
                        (state_of example_one_label))
  = if decide (max_value (label_image example_one_label 1) = 1)
    then warnings (state_of example_one_label) ++ [one_label_msg]
    else warnings (state_of example_one_label).
Proof.
  apply (warns_iff_single_label (state_of example_one_label) _ 0%nat
           example_one_label 5 1 true (Ok 0%nat)).
  - reflexivity.
  - split; [reflexivity|]. intros _. vm_compute.
    repeat (constructor; [discriminate|]). constructor.
  - lia.
  - vm_compute. reflexivity.
Defined.

(** X8.  The warning comes after the shortcut, the element-type check
    and the histogram: a run through the [max_size == 0] shortcut, a run
    that raises the type error and a run that raises the value error of
    the histogram step add no warning. *)
Theorem no_warning_on_shortcut_or_early_error `{Labeler} (s s' : state) (ar : loc)
    (a : ndarray) (max_size connectivity : Z) (in_place : bool) (r : outcome loc) :
  objs s !! ar = Some a →
  remove_big_objects ar max_size connectivity in_place s = Some (r, s') →
  max_size = 0
  ∨ (∃ msg, r = Raise (TypeError msg))
  ∨ r = Raise (ValueError negative_labels_msg) →
  warnings s' = warnings s.
Proof.
  intros Ha Hrun Hor. rewrite (run_cases s ar a _ _ _ Ha) in Hrun.
  destruct (supported (dtype_of a)); simpl in Hrun; [|by simplify_eq].
  destruct (max_size =? 0) eqn:Hm.
  { simplify_eq. apply working_state_warnings. }
  apply Z.eqb_neq in Hm. destruct Hor as [?|[[msg ->]| ->]]; [done| |].
  - repeat case_match; simplify_eq.
  - repeat case_match; simplify_eq. apply working_state_warnings.
Qed.

Lemma no_warning_on_shortcut_or_early_error_witness :
  warnings (final_state (remove_big_objects 0%nat 0 1 true (state_of example_one_label))
                        (state_of example_one_label))
  = warnings (state_of example_one_label).
Proof.
  apply (no_warning_on_shortcut_or_early_error (state_of example_one_label) _ 0%nat
           example_one_label 0 1 true (Ok 0%nat)).
  - reflexivity.
  - vm_compute. reflexivity.
  - left. reflexivity.
Defined.

(** X9.  With a negative [max_size] every label is too big: a run that
    returns gives an array of zeros. *)
Theorem negative_max_size_clears `{Labeler} (s s' : state) (ar out : loc)
    (a : ndarray) (max_size connectivity : Z) (in_place : bool) :
  objs s !! ar = Some a →
  max_size < 0 →
  remove_big_objects ar max_size connectivity in_place s = Some (Ok out, s') →
  objs s' !! out = Some (with_data a (replicate (length (data a)) 0)).
Proof.
  intros Ha Hm Hrun.
  destruct (run_ok _ _ _ _ _ _ _ _ Ha Hrun) as (_ & _ & -> & _).
  do 2 f_equal. unfold result_data.
  replace (max_size =? 0) with false by (symmetry; lia).
  unfold filtered.
  rewrite (zip_with_mask_const (λ l, max_size <? occurrences l (label_image a connectivity)) true);
    [done|apply label_image_length|].
  intros l _. pose proof (occurrences_nonneg l (label_image a connectivity)). lia.
Qed.

Lemma negative_max_size_clears_witness :
  objs (final_state (remove_big_objects 0%nat (-1) 1 false (state_of example_mask))
                    (state_of example_mask)) !! 1%nat
  = Some (with_data example_mask (replicate (length (data example_mask)) 0)).
Proof.
  apply (negative_max_size_clears (state_of example_mask) _ 0%nat 1%nat
           example_mask (-1) 1 false).
  - reflexivity.
  - lia.
  - vm_compute. reflexivity.
Defined.

(** X10.  With [max_size] at least the number of elements nothing can be
    too big: a run that returns gives an array equal to the input. *)
Theorem large_max_size_keeps_all `{Labeler} (s s' : state) (ar out : loc)
    (a : ndarray) (max_size connectivity : Z) (in_place : bool) :
  objs s !! ar = Some a →
  Z.of_nat (length (data a)) ≤ max_size →
  remove_big_objects ar max_size connectivity in_place s = Some (Ok out, s') →
  objs s' !! out = Some a.
Proof.
  intros Ha Hm Hrun.
  destruct (run_ok _ _ _ _ _ _ _ _ Ha Hrun) as (_ & _ & -> & _).
  f_equal. rewrite <- (with_data_same a) at 3. f_equal. unfold result_data.
  destruct (max_size =? 0); [done|]. unfold filtered.
  rewrite (zip_with_mask_const (λ l, max_size <? occurrences l (label_image a connectivity)) false);
    [done|apply label_image_length|].
  intros l _. pose proof (occurrences_le_length l (label_image a connectivity)).
  rewrite label_image_length in *. lia.
Qed.

Lemma large_max_size_keeps_all_witness :
  objs (final_state (remove_big_objects 0%nat 15 2 false (state_of example_mask))
                    (state_of example_mask)) !! 1%nat
  = Some example_mask.
Proof.
  apply (large_max_size_keeps_all (state_of example_mask) _ 0%nat 1%nat
           example_mask 15 2 false).
  - reflexivity.
  - simpl. lia.
  - vm_compute. reflexivity.
Defined.

(** X11.  Raising the threshold never removes more: when the runs at
    thresholds [m1 <= m2], with [m1 <> 0], both return, every non-zero
    element of the result at [m1] is also in the result at [m2]. *)
Theorem kept_pixels_monotone `{Labeler} (s s1 s2 : state) (ar o1 o2 : loc)
    (a : ndarray) (m1 m2 connectivity : Z) (in_place1 in_place2 : bool) :
  objs s !! ar = Some a →
  m1 ≠ 0 →
  m1 ≤ m2 →
  remove_big_objects ar m1 connectivity in_place1 s = Some (Ok o1, s1) →
  remove_big_objects ar m2 connectivity in_place2 s = Some (Ok o2, s2) →
  ∃ a1 a2,
    objs s1 !! o1 = Some a1
    ∧ objs s2 !! o2 = Some a2
    ∧ ∀ i x, x ≠ 0 → data a1 !! i = Some x → data a2 !! i = Some x.
Proof.
  intros Ha Hm1 Hle Hrun1 Hrun2.
  destruct (run_ok _ _ _ _ _ _ _ _ Ha Hrun1) as (_ & _ & Hout1 & _).
  destruct (run_ok _ _ _ _ _ _ _ _ Ha Hrun2) as (_ & _ & Hout2 & _).
  eexists _, _. split; [done|]. split; [done|]. simpl.
  intros i x Hx Hi. unfold result_data in *.
  rewrite (proj2 (Z.eqb_neq _ _) Hm1) in Hi.
  assert (Hlt : (i < length (data a))%nat).
  { apply lookup_lt_Some in Hi.
    by rewrite filtered_length in Hi by apply label_image_length. }
  destruct (lookup_lt_is_Some_2 (data a) i Hlt) as [y Hy].
  destruct (lookup_lt_is_Some_2 (label_image a connectivity) i) as [l Hl].
  { by rewrite label_image_length. }
  rewrite (filtered_lookup _ _ _ _ _ _ Hl Hy) in Hi.
  destruct (m1 <? occurrences l (label_image a connectivity)) eqn:Hocc;
    simplify_eq.
  apply Z.ltb_ge in Hocc.
  destruct (m2 =? 0); [done|].
  rewrite (filtered_lookup _ _ _ _ _ _ Hl Hy).
  by replace (m2 <? occurrences l (label_image a connectivity)) with false
    by (symmetry; lia).
Qed.

Lemma kept_pixels_monotone_witness :
  ∃ a1 a2,
    objs (final_state (remove_big_objects 0%nat 2 1 false (state_of example_labels))
                      (state_of example_labels)) !! 1%nat = Some a1
    ∧ objs (final_state (remove_big_objects 0%nat 3 1 false (state_of example_labels))
                        (state_of example_labels)) !! 1%nat = Some a2
    ∧ ∀ i x, x ≠ 0 → data a1 !! i = Some x → data a2 !! i = Some x.
Proof.
  apply (kept_pixels_monotone (state_of example_labels) _ _ 0%nat 1%nat 1%nat
           example_labels 2 3 1 false false).
  - reflexivity.
  - lia.
  - lia.
  - vm_compute. reflexivity.
  - vm_compute. reflexivity.
Defined.

(** X12.  A label is removed whole or kept whole: two positions with the
    same label in the label map are both zero in the returned array, or
    both as they were in the input. *)
Theorem same_label_same_fate `{Labeler} (s s' : state) (ar out : loc)
    (a o : ndarray) (max_size connectivity : Z) (in_place : bool)
    (i j : nat) (l : Z) :
  objs s !! ar = Some a →
  remove_big_objects ar max_size connectivity in_place s = Some (Ok out, s') →
  objs s' !! out = Some o →
  label_image a connectivity !! i = Some l →
  label_image a connectivity !! j = Some l →
  (data o !! i = Some 0 ∧ data o !! j = Some 0)
  ∨ (data o !! i = data a !! i ∧ data o !! j = data a !! j).
Proof.
  intros Ha Hrun Ho Hi Hj.
  destruct (run_ok _ _ _ _ _ _ _ _ Ha Hrun) as (_ & _ & Hout & _).
  rewrite Ho in Hout. simplify_eq. simpl. unfold result_data.
  destruct (max_size =? 0); [by right|].
  apply lookup_lt_Some in Hi as Hli. apply lookup_lt_Some in Hj as Hlj.
  rewrite label_image_length in Hli, Hlj.
  destruct (lookup_lt_is_Some_2 (data a) i Hli) as [x Hx].
  destruct (lookup_lt_is_Some_2 (data a) j Hlj) as [y Hy].
  rewrite (filtered_lookup _ _ _ _ _ _ Hi Hx), (filtered_lookup _ _ _ _ _ _ Hj Hy).
  rewrite Hx, Hy. destruct (_ <? _); eauto.
Qed.

Lemma same_label_same_fate_witness :
  (data (with_data example_labels (result_data example_labels 2 1)) !! 0%nat = Some 0
   ∧ data (with_data example_labels (result_data example_labels 2 1)) !! 2%nat = Some 0)
  ∨ (data (with_data example_labels (result_data example_labels 2 1)) !! 0%nat
     = data example_labels !! 0%nat
     ∧ data (with_data example_labels (result_data example_labels 2 1)) !! 2%nat
       = data example_labels !! 2%nat).
Proof.
  apply (same_label_same_fate (state_of example_labels)
           (final_state in_place_run (state_of example_labels))
           0%nat 0%nat example_labels _ 2 1 true 0%nat 2%nat 1).
  - reflexivity.
  - vm_compute. reflexivity.
  - vm_compute. reflexivity.
  - reflexivity.
  - reflexivity.
Defined.

(** X13.  On a labelled image, when an in-place run with threshold
    [m1], a second in-place run with threshold [m2] on what the first
    left, and a single run with the smaller of the two all return, the
    two runs in sequence leave the array that the single run returns;
    with [m1 = m2] the second run changes nothing.  Both thresholds are
    other than 0. *)
Theorem two_runs_compose `{Labeler} (s s1 s2 s3 : state) (ar o1 o2 o3 : loc)
    (a : ndarray) (m1 m2 c1 c2 c3 : Z) (in_place : bool) :
  objs s !! ar = Some a →
  dtype_of a ≠ dt_bool →
  m1 ≠ 0 → m2 ≠ 0 →
  remove_big_objects ar m1 c1 true s = Some (Ok o1, s1) →
  remove_big_objects ar m2 c2 true s1 = Some (Ok o2, s2) →
  remove_big_objects ar (Z.min m1 m2) c3 in_place s = Some (Ok o3, s3) →
  o1 = ar ∧ o2 = ar
  ∧ is_Some (objs s2 !! ar)
  ∧ objs s2 !! ar = objs s3 !! o3.
Proof.
  intros Ha Hb Hm1 Hm2 Hrun1 Hrun2 Hrun3.
  assert (Hmin : Z.min m1 m2 ≠ 0) by lia.
  destruct (run_ok _ _ _ _ _ _ _ _ Ha Hrun1) as (_ & -> & Hout1 & _).
  unfold working_loc in *.
  destruct (run_ok _ _ _ _ _ _ _ _ Hout1 Hrun2) as (_ & -> & Hout2 & _).
  destruct (run_ok _ _ _ _ _ _ _ _ Ha Hrun3) as (_ & _ & Hout3 & _).
  unfold working_loc in *. split; [done|]. split; [done|].
  split; [by eexists|].
  rewrite Hout2, Hout3. f_equal. unfold result_data, label_image. simpl.
  rewrite (proj2 (Z.eqb_neq _ _) Hm1), (proj2 (Z.eqb_neq _ _) Hm2),
    (proj2 (Z.eqb_neq _ _) Hmin), bool_decide_eq_false_2 by done.
  unfold with_data. simpl. by rewrite filtered_twice.
Qed.

Lemma two_runs_compose_witness :
  0%nat = 0%nat ∧ 0%nat = 0%nat
  ∧ is_Some (objs (final_state
                     (remove_big_objects 0%nat 1 1 true
                        (final_state in_place_run (state_of example_labels)))
                     (state_of example_labels)) !! 0%nat)
  ∧ objs (final_state
            (remove_big_objects 0%nat 1 1 true
               (final_state in_place_run (state_of example_labels)))
            (state_of example_labels)) !! 0%nat
    = objs (final_state
              (remove_big_objects 0%nat (Z.min 2 1) 1 false (state_of example_labels))
              (state_of example_labels)) !! 1%nat.
Proof.
  apply (two_runs_compose (state_of example_labels)
           (final_state in_place_run (state_of example_labels)) _ _
           0%nat 0%nat 0%nat 1%nat example_labels 2 1 1 1 1 false).
  - reflexivity.
  - discriminate.
  - lia.
  - lia.
  - vm_compute. reflexivity.
  - vm_compute. reflexivity.
  - vm_compute. reflexivity.
Defined.
